(** * Antenna tracker core (module_aat.cpp): a shallow embedding

    The tracking core of the AAT backpack: geodesic distance and bearing,
    home latching, GPS interval and angular-rate estimation, azimuth
    projection and servo smoothing.  Machine integers are values of [Z]
    with the wrap-around of their C++ type written out; the conversion of
    a coordinate to [float] rounds as the hardware does; the double
    precision trigonometry of [calcDistAndAzimuth] and [calcElevation] is
    read over the real numbers; divisions return [option], [None] standing
    for a zero divisor. *)

From Stdlib Require Import ZArith Bool List Lia Reals Lra.
Import ListNotations.

Local Open Scope Z_scope.

(** ** Machine integers *)

(** Conversion to [uint32_t], [int32_t], [uint16_t] and [uint8_t]. *)
Definition uint32 (z : Z) : Z := z mod 2 ^ 32.
Definition int32 (z : Z) : Z := (z + 2 ^ 31) mod 2 ^ 32 - 2 ^ 31.
Definition uint16 (z : Z) : Z := z mod 2 ^ 16.
Definition uint8 (z : Z) : Z := z mod 2 ^ 8.

(** Arithmetic at type [int] / [int32_t] / [long] (32 bits on the target). *)
Definition add32 (a b : Z) : Z := int32 (a + b).
Definition sub32 (a b : Z) : Z := int32 (a - b).
Definition mul32 (a b : Z) : Z := int32 (a * b).

(** Arithmetic at type [uint32_t]. *)
Definition uadd32 (a b : Z) : Z := uint32 (a + b).
Definition usub32 (a b : Z) : Z := uint32 (a - b).
Definition umul32 (a b : Z) : Z := uint32 (a * b).

(** [(float)n] for an [int32_t] [n]: the nearest single-precision number,
    ties to even.  A float has 24 significant bits, so the result is again
    an integer: [n] itself up to 2^24 in magnitude, a multiple of
    [2 ^ e] beyond, where [e] counts the bits that do not fit. *)
Definition float_of_int32 (n : Z) : Z :=
  let a := Z.abs n in
  let e := Z.log2 a - 23 in
  if e <=? 0 then n
  else
    let q := a / 2 ^ e in
    let r := a mod 2 ^ e in
    let half := 2 ^ (e - 1) in
    let q' :=
      if (half <? r) || ((r =? half) && Z.odd q) then q + 1 else q in
    Z.sgn n * (q' * 2 ^ e).

(** [a / b] and [a % b] of C++: truncation toward zero, the remainder takes
    the sign of the dividend; a zero divisor has no result. *)
Definition c_div (a b : Z) : option Z :=
  if b =? 0 then None else Some (int32 (Z.quot a b)).
Definition c_rem (a b : Z) : option Z :=
  if b =? 0 then None else Some (Z.rem a b).

(** The same at an unsigned type, where both operands are non-negative. *)
Definition u_div (a b : Z) : option Z :=
  if b =? 0 then None else Some (a / b).
Definition u_rem (a b : Z) : option Z :=
  if b =? 0 then None else Some (a mod b).

(** Arduino's [constrain(amt, low, high)] macro:
    [((amt)<(low)?(low):((amt)>(high)?(high):(amt)))]. *)
Definition constrain (amt low high : Z) : Z :=
  if amt <? low then low else if high <? amt then high else amt.

(** Arduino's [abs(x)] macro, [((x)>0?(x):-(x))], at type [int]. *)
Definition c_abs (x : Z) : Z := if 0 <? x then x else int32 (- x).

(** A small error monad for the partial operations. *)
Definition bind {A B : Type} (m : option A) (k : A -> option B) : option B :=
  match m with
  | Some a => k a
  | None => None
  end.

Notation "x <- m ;; k" := (bind m (fun x => k))
  (at level 61, m at next level, right associativity).

(** Arduino's [long map(long x, long in_min, long in_max, long out_min,
    long out_max)]:
    [(x - in_min) * (out_max - out_min) / (in_max - in_min) + out_min]. *)
Definition map (x in_min in_max out_min out_max : Z) : option Z :=
  q <- c_div (mul32 (sub32 x in_min) (sub32 out_max out_min))
             (sub32 in_max in_min) ;;
  Some (add32 q out_min).

(** ** Data *)

(** [_gpsLast]: the single-slot buffer of the last decoded GPS record. *)
Record GpsLast := mkGpsLast {
  lat : Z;            (* int32_t, degrees * 1e7 *)
  lon : Z;            (* int32_t, degrees * 1e7 *)
  speed : Z;
  heading : Z;
  altitude : Z;       (* int32_t, meters *)
  lastUpdateMs : Z;   (* uint32_t *)
  satcnt : Z;         (* uint8_t *)
  updated : bool
}.

(** [_home]. *)
Record Home := mkHome {
  home_lat : Z;
  home_lon : Z;
  home_alt : Z
}.

(** Index of an axis, [IDX_AZIM] and [IDX_ELEV] ([IDX_COUNT] is 2). *)
Inductive ServoIndex := IDX_AZIM | IDX_ELEV.

(** [int32_t _servoPos[IDX_COUNT]]: smoothed position, microseconds * 100. *)
Record ServoPos := mkServoPos {
  pos_azim : Z;
  pos_elev : Z
}.

Definition servo_get (p : ServoPos) (idx : ServoIndex) : Z :=
  match idx with
  | IDX_AZIM => pos_azim p
  | IDX_ELEV => pos_elev p
  end.

Definition servo_set (p : ServoPos) (idx : ServoIndex) (v : Z) : ServoPos :=
  match idx with
  | IDX_AZIM => mkServoPos v (pos_elev p)
  | IDX_ELEV => mkServoPos (pos_azim p) v
  end.

(** The members of [AatModule] the tracking core reads and writes.  The
    class is declared outside module_aat.cpp.  [_targetAzim] and
    [_targetElev] are taken as unsigned members narrower than [int] (16 and
    8 bits), so that they are promoted to [int] in arithmetic, as the
    [int32_t] results they are summed into suggest; the other members have
    the 32-bit types the source casts them to. *)
Record AatModule := mkAatModule {
  _gpsLast : GpsLast;
  _home : Home;
  _gpsAvgUpdateInterval : Z;   (* uint32_t, ms * 100 *)
  _lastServoUpdateMs : Z;      (* uint32_t *)
  _targetDistance : Z;         (* uint32_t, meters *)
  _targetAzim : Z;             (* uint16_t, degrees *)
  _targetElev : Z;             (* uint8_t, degrees *)
  _azimMsPerDegree : Z;        (* int32_t, ms per degree *)
  _servoPos : ServoPos
}.

(** The options the core reads from the global [config] object. *)
Record Config := mkConfig {
  GetAatSatelliteHomeMin : Z;
  GetAatServoLow : ServoIndex -> Z;
  GetAatServoHigh : ServoIndex -> Z;
  GetAatServoSmooth : Z;
  GetAatProject : bool
}.

(** A decoded [crsf_packet_gps_t], fields in host byte order. *)
Record GpsPacket := mkGpsPacket {
  p_lat : Z;        (* 32 bits *)
  p_lon : Z;        (* 32 bits *)
  p_speed : Z;      (* 16 bits *)
  p_heading : Z;    (* 16 bits *)
  p_altitude : Z;   (* 16 bits, meters + 1000 *)
  p_satcnt : Z      (* 8 bits *)
}.

(** Field updates. *)
Definition set_updated (b : bool) (g : GpsLast) : GpsLast :=
  mkGpsLast (lat g) (lon g) (speed g) (heading g) (altitude g)
            (lastUpdateMs g) (satcnt g) b.
Definition set_lastUpdateMs (t : Z) (g : GpsLast) : GpsLast :=
  mkGpsLast (lat g) (lon g) (speed g) (heading g) (altitude g)
            t (satcnt g) (updated g).

Definition set_gpsLast (g : GpsLast) (s : AatModule) : AatModule :=
  mkAatModule g (_home s) (_gpsAvgUpdateInterval s) (_lastServoUpdateMs s)
    (_targetDistance s) (_targetAzim s) (_targetElev s) (_azimMsPerDegree s)
    (_servoPos s).
Definition set_home (h : Home) (s : AatModule) : AatModule :=
  mkAatModule (_gpsLast s) h (_gpsAvgUpdateInterval s) (_lastServoUpdateMs s)
    (_targetDistance s) (_targetAzim s) (_targetElev s) (_azimMsPerDegree s)
    (_servoPos s).
Definition set_gpsAvgUpdateInterval (v : Z) (s : AatModule) : AatModule :=
  mkAatModule (_gpsLast s) (_home s) v (_lastServoUpdateMs s)
    (_targetDistance s) (_targetAzim s) (_targetElev s) (_azimMsPerDegree s)
    (_servoPos s).
Definition set_lastServoUpdateMs (v : Z) (s : AatModule) : AatModule :=
  mkAatModule (_gpsLast s) (_home s) (_gpsAvgUpdateInterval s) v
    (_targetDistance s) (_targetAzim s) (_targetElev s) (_azimMsPerDegree s)
    (_servoPos s).
Definition set_target (dist azim elev : Z) (s : AatModule) : AatModule :=
  mkAatModule (_gpsLast s) (_home s) (_gpsAvgUpdateInterval s)
    (_lastServoUpdateMs s) dist azim elev (_azimMsPerDegree s) (_servoPos s).
Definition set_azimMsPerDegree (v : Z) (s : AatModule) : AatModule :=
  mkAatModule (_gpsLast s) (_home s) (_gpsAvgUpdateInterval s)
    (_lastServoUpdateMs s) (_targetDistance s) (_targetAzim s) (_targetElev s)
    v (_servoPos s).
Definition set_servoPos (p : ServoPos) (s : AatModule) : AatModule :=
  mkAatModule (_gpsLast s) (_home s) (_gpsAvgUpdateInterval s)
    (_lastServoUpdateMs s) (_targetDistance s) (_targetAzim s) (_targetElev s)
    (_azimMsPerDegree s) p.

(** ** Geodesy *)

Section Geodesy.
Local Open Scope R_scope.

(** [DEG2RAD] and [RAD2DEG]. *)
Definition DEG2RAD (deg : R) : R := deg * PI / 180.
Definition RAD2DEG (rad : R) : R := rad * 180 / PI.

(** [atan2(y, x)] of <math.h>: the angle of the point [(x, y)], in
    [(-PI, PI]]. *)
Definition atan2 (y x : R) : R :=
  if Rlt_dec 0 x then atan (y / x)
  else if Rlt_dec x 0 then
    if Rle_dec 0 y then atan (y / x) + PI else atan (y / x) - PI
  else if Rlt_dec 0 y then PI / 2
  else if Rlt_dec y 0 then - (PI / 2)
  else 0.

(** Conversion of a [double] to an integer type discards the fraction. *)
Definition Rtrunc (x : R) : Z :=
  if Rle_dec 0 x then Int_part x else (- Int_part (- x))%Z.

(** [(uint32_t)x] and [(int32_t)x] for a double [x].  A value that does not
    fit is reduced modulo 2^32, which is what the conversion routine of the
    target computes for the negative headings of [calcDistAndAzimuth]. *)
Definition double_to_uint32 (x : R) : Z := uint32 (Rtrunc x).
Definition double_to_int32 (x : R) : Z := int32 (Rtrunc x).

(** [hdg -> (hdg + 360) % 360], at [uint32_t]. *)
Definition normalizeHdg (hdg : Z) : Z := (uadd32 hdg 360) mod 360.

(** [calcDistAndAzimuth]: both out-pointers are given by the only caller;
    the result is [( *out_dist, *out_azimuth )].  The three coordinates
    pass through [(float)] before they are divided by 1e7 in double
    precision; that division and the trigonometry are read over the
    reals.  Over the reals the argument of [acos] is never above 1; in
    double precision rounding can take it there for two positions some
    decimeters apart, where [acos] of <math.h> does not return a number
    and the model has distance 0. *)
Definition calcDistAndAzimuth (srcLat srcLon dstLat dstLon : Z) : Z * Z :=
  let deltaLon :=
    DEG2RAD (IZR (float_of_int32 (sub32 dstLon srcLon)) / 10000000) in
  let thetaA := DEG2RAD (IZR (float_of_int32 srcLat) / 10000000) in
  let thetaB := DEG2RAD (IZR (float_of_int32 dstLat) / 10000000) in
  let cosThetaA := cos thetaA in
  let cosThetaB := cos thetaB in
  let sinThetaA := sin thetaA in
  let sinThetaB := sin thetaB in
  let cosDeltaLon := cos deltaLon in
  let sinDeltaLon := sin deltaLon in
  let R := 6371000 in
  let dist :=
    acos (sinThetaA * sinThetaB + cosThetaA * cosThetaB * cosDeltaLon) * R in
  let X := cosThetaB * sinDeltaLon in
  let Y := cosThetaA * sinThetaB - sinThetaA * cosThetaB * cosDeltaLon in
  let hdg := double_to_uint32 (RAD2DEG (atan2 X Y)) in
  (double_to_uint32 dist, normalizeHdg hdg).

(** [calcElevation]. *)
Definition calcElevation (distance altitude : Z) : Z :=
  double_to_int32 (RAD2DEG (atan2 (IZR altitude) (IZR distance))).



End Geodesy.

(** ** The tracking core *)

Definition DELAY_FIRST_UPDATE : Z := 5000.
Definition GPS_UPDATE_INTERVAL_MAX : Z := umul32 (umul32 10 1000) 100.

(** The constructor: every member is zero. *)
Definition AatModule_new : AatModule :=
  mkAatModule (mkGpsLast 0 0 0 0 0 0 0 false) (mkHome 0 0 0)
              0 0 0 0 0 0 (mkServoPos 0 0).

(** [SendGpsTelemetry]: the record is stored and flagged fresh. *)
Definition SendGpsTelemetry (p : GpsPacket) (s : AatModule) : AatModule :=
  set_gpsLast
    (mkGpsLast (int32 (p_lat p)) (int32 (p_lon p)) (p_speed p) (p_heading p)
               (sub32 (p_altitude p) 1000)
               (lastUpdateMs (_gpsLast s)) (p_satcnt p) true) s.

(** [updateGpsInterval], on the stored average. *)
Definition updateGpsInterval (interval : Z) (avg : Z) : Z :=
  let interval := umul32 interval 100 in
  let avg := uadd32 avg (Z.quot (sub32 (int32 interval) (int32 avg)) 4) in
  if GPS_UPDATE_INTERVAL_MAX <? avg then GPS_UPDATE_INTERVAL_MAX else avg.

(** [azimDelta] of [processGps]:
    [(azimuth - _targetAzim + 540) % 360 - 180], computed at [uint32_t] and
    stored in an [int32_t]. *)
Definition azimDelta (azimuth targetAzim : Z) : Z :=
  int32 (usub32 ((uadd32 (usub32 azimuth targetAzim) 540) mod 360) 180).

(** The value [processGps] stores in [_azimMsPerDegree]:
    [(azimDelta == 0) ? 0 : (int32_t)interval / azimDelta]. *)
Definition msPerDegree (interval delta : Z) : option Z :=
  if delta =? 0 then Some 0 else c_div (int32 interval) delta.

(** The local [interval] of [processGps]: the time since the previous
    record was processed, [now - _gpsLast.lastUpdateMs] at [uint32_t]. *)
Definition processInterval (now : Z) (s : AatModule) : Z :=
  usub32 now (lastUpdateMs (_gpsLast s)).

(** The record is marked consumed and stamped with [now]; nothing else
    changes.  This is what [processGps] does to [_gpsLast] for every fresh
    record, before it looks at the satellite count. *)
Definition consumeFix (now : Z) (s : AatModule) : AatModule :=
  set_gpsLast (set_lastUpdateMs now (set_updated false (_gpsLast s))) s.

(** The position of the record in [_gpsLast], as a home position. *)
Definition fixPosition (g : GpsLast) : Home :=
  mkHome (lat g) (lon g) (altitude g).

(** The target vector [processGps] computes for a record, from [home]:
    distance, azimuth and elevation clamped to [0, 90]. *)
Definition fixDistance (home : Home) (g : GpsLast) : Z :=
  fst (calcDistAndAzimuth (home_lat home) (home_lon home) (lat g) (lon g)).
Definition fixAzimuth (home : Home) (g : GpsLast) : Z :=
  snd (calcDistAndAzimuth (home_lat home) (home_lon home) (lat g) (lon g)).
Definition fixElevation (home : Home) (g : GpsLast) : Z :=
  uint8 (constrain
           (calcElevation (fixDistance home g)
                          (sub32 (altitude g) (home_alt home)))
           0 90).

Section Tracker.

(** [isHomeSet] is declared with the class, outside module_aat.cpp: a
    predicate on [_home], the only member [processGps] writes when it
    sets home. *)
Variable isHomeSet : Home -> bool.

(** The global [config]. *)
Variable config : Config.

(** [Init]: each axis starts at the midpoint of its bounds. *)
Definition Init (s : AatModule) : AatModule :=
  let mid idx :=
    mul32 (Z.quot (add32 (GetAatServoLow config idx)
                         (GetAatServoHigh config idx)) 2) 100 in
  set_servoPos (mkServoPos (mid IDX_AZIM) (mid IDX_ELEV)) s.

(** [calcGpsIntervalPct]. *)
Definition calcGpsIntervalPct (now : Z) (s : AatModule) : option Z :=
  if negb (_gpsAvgUpdateInterval s =? 0) then
    q <- u_div (umul32 (usub32 now (lastUpdateMs (_gpsLast s)))
                       (umul32 100 100))
               (uint32 (_gpsAvgUpdateInterval s)) ;;
    Some (uint8 (constrain q 0 100))
  else Some 0.

(** [processGps]. *)
Definition processGps (now : Z) (s : AatModule) : option AatModule :=
  if negb (updated (_gpsLast s)) then Some s
  else
    let s := set_gpsLast (set_updated false (_gpsLast s)) s in
    let interval := processInterval now s in
    let s := set_gpsLast (set_lastUpdateMs now (_gpsLast s)) s in
    let gps := _gpsLast s in
    let needHome := negb (isHomeSet (_home s)) in
    if needHome && negb (GetAatSatelliteHomeMin config <=? satcnt gps)
    then Some s
    else
      let didSetHome := needHome in
      let s :=
        if didSetHome
        then set_home (mkHome (lat gps) (lon gps) (altitude gps)) s
        else s in
      let home := _home s in
      let '(distance, azimuth) :=
        calcDistAndAzimuth (home_lat home) (home_lon home)
                           (lat gps) (lon gps) in
      let elevation :=
        uint8 (constrain
                 (calcElevation distance (sub32 (altitude gps) (home_alt home)))
                 0 90) in
      s <- (if negb didSetHome then
              let s :=
                set_gpsAvgUpdateInterval
                  (updateGpsInterval interval (_gpsAvgUpdateInterval s)) s in
              rate <- msPerDegree interval (azimDelta azimuth (_targetAzim s)) ;;
              Some (set_azimMsPerDegree rate s)
            else Some s) ;;
      Some (set_target distance (uint16 azimuth) elevation s).

(** [azimMsPDLimited] of [calcProjectedAzim]: at least 10 ms per degree in
    magnitude. *)
Definition azimMsPDLimited (rate : Z) : Z :=
  if (-10 <? rate) && (rate <? 10) then
    if 0 <? rate then 10 else -10
  else rate.

(** [calcProjectedAzim]. *)
Definition calcProjectedAzim (now : Z) (s : AatModule) : option Z :=
  if GetAatProject config
     && negb (_gpsAvgUpdateInterval s =? 0)
     && negb (_azimMsPerDegree s =? 0)
     && (3 <? _targetDistance s)
  then
    let elapsed :=
      constrain (usub32 now (lastUpdateMs (_gpsLast s))) 0
                (_gpsAvgUpdateInterval s / 100) in
    q <- c_div (int32 elapsed) (azimMsPDLimited (_azimMsPerDegree s)) ;;
    Some (Z.rem (add32 (add32 q (_targetAzim s)) 360) 360)
  else Some (_targetAzim s).

(** The positions [newServoPos[idx]] that [servoUpdate] steers to. *)
Definition newServoPos (projectedAzim : Z) (s : AatModule)
    (idx : ServoIndex) : option Z :=
  match idx with
  | IDX_AZIM =>
      let transformedAzim := Z.rem (add32 projectedAzim 180) 360 in
      m <- map transformedAzim 0 360 (GetAatServoLow config IDX_AZIM)
               (GetAatServoHigh config IDX_AZIM) ;;
      Some (mul32 100 m)
  | IDX_ELEV =>
      let transformedElev := _targetElev s in
      m <- map transformedElev 0 90 (GetAatServoLow config IDX_ELEV)
               (GetAatServoHigh config IDX_ELEV) ;;
      Some (mul32 100 m)
  end.

(** The body of the loop over the axes in [servoUpdate]: jump when the
    target is more than 80% of the range away, smooth otherwise. *)
Definition servoStep (idx : ServoIndex) (newPos cur : Z) : option Z :=
  let range :=
    mul32 100 (sub32 (GetAatServoHigh config idx) (GetAatServoLow config idx)) in
  let diff := sub32 newPos cur in
  pct <- c_div (mul32 (c_abs diff) 100) range ;;
  if 80 <? pct then Some newPos
  else
    d <- c_div diff (add32 (GetAatServoSmooth config) 1) ;;
    Some (add32 cur d).

(** [servoUpdate]. *)
Definition servoUpdate (now : Z) (s : AatModule) : option AatModule :=
  let interval := usub32 now (_lastServoUpdateMs s) in
  if interval <? 20 then Some s
  else
    let s := set_lastServoUpdateMs now s in
    projectedAzim <- calcProjectedAzim now s ;;
    newAzim <- newServoPos projectedAzim s IDX_AZIM ;;
    newElev <- newServoPos projectedAzim s IDX_ELEV ;;
    a <- servoStep IDX_AZIM newAzim (servo_get (_servoPos s) IDX_AZIM) ;;
    e <- servoStep IDX_ELEV newElev (servo_get (_servoPos s) IDX_ELEV) ;;
    Some (set_servoPos (mkServoPos a e) s).

(** [Loop]: the GPS record is processed, then the servos are driven once
    home is set and the start-up delay has passed. *)
Definition Loop (now : Z) (s : AatModule) : option AatModule :=
  s <- processGps now s ;;
  if isHomeSet (_home s) && (DELAY_FIRST_UPDATE <? now)
  then servoUpdate now s
  else Some s.

(** What can happen to the module between two observations: a GPS record
    arrives, or the control loop runs. *)
Inductive step : AatModule -> AatModule -> Prop :=
| step_gps : forall p s, step s (SendGpsTelemetry p s)
| step_loop : forall now s s', Loop now s = Some s' -> step s s'.

(** The states the module reaches after construction and [Init]. *)
Inductive reachable : AatModule -> Prop :=
| reach_init : reachable (Init AatModule_new)
| reach_step : forall s s', reachable s -> step s s' -> reachable s'.

(** A run of the module: GPS records arriving and control-loop ticks, in
    the order they happen. *)
Inductive Event :=
| Gps (p : GpsPacket)
| Tick (now : Z).

Fixpoint run (evs : list Event) (s : AatModule) : option AatModule :=
  match evs with
  | [] => Some s
  | Gps p :: evs => run evs (SendGpsTelemetry p s)
  | Tick now :: evs => s <- Loop now s ;; run evs s
  end.

End Tracker.

(** The update policy in the words of the specification, for one axis:
    [range = 100 * (high - low)], [delta = newPosition - currentPosition];
    snap when [|delta| * 100 / range > 80], otherwise advance by
    [delta / (smoothingFactor + 1)]. *)
Definition spec_servoStep (low high smoothingFactor : Z)
    (newPosition currentPosition : Z) : Z :=
  let range := 100 * (high - low) in
  let delta := newPosition - currentPosition in
  if 80 <? Z.abs delta * 100 / range then newPosition
  else currentPosition + Z.quot delta (smoothingFactor + 1).

(** ** A fly-over *)

(** One declaration of [isHomeSet] a build can have: home counts as set
    once it differs from the zero position the constructor leaves. *)
Definition isHomeSet_nonzero (h : Home) : bool :=
  negb (home_lat h =? 0) || negb (home_lon h =? 0).

(** Both axes between 1000 and 2000 microseconds, smoothing factor 3,
    projection enabled, six satellites to set home. *)
Definition scenario_config : Config :=
  mkConfig 6 (fun _ => 1000) (fun _ => 2000) 3 true.

(** Three records with eight satellites at 100 m altitude: at 1 N 1 E,
    then 22 m south of it, then 22 m north of it. *)
Definition fix_home : GpsPacket := mkGpsPacket 10000000 10000000 0 0 1100 8.
Definition fix_south : GpsPacket := mkGpsPacket 9998000 10000000 0 0 1100 8.
Definition fix_north : GpsPacket := mkGpsPacket 10002000 10000000 0 0 1100 8.

(** Home is set at 10 s; the next record is processed 40 s later, south of
    home; 1.9 s after that the target has passed over home and is north of
    it. *)
Definition flyover : list Event :=
  [Gps fix_home; Tick 10000; Gps fix_south; Tick 50000;
   Gps fix_north; Tick 51900].

(** No record arrives for the next 5.5 s; then the control loop runs every
    20 ms. *)
Definition stale_ticks : list Event :=
  [Tick 57400; Tick 57420; Tick 57440; Tick 57460;
   Tick 57480; Tick 57500; Tick 57520; Tick 57540].

(** ** The display *)

(** [displayIdle] prints a coordinate with ["%d.%07d"]; its two arguments
    are [v / 10000000] and [abs(v) % 10000000]. *)
Definition displayIdle_coord (v : Z) : Z * Z :=
  (Z.quot v 10000000, Z.rem (c_abs v) 10000000).

(** The rectangle [fillRect(x, y, w, h, ...)] paints. *)
Record FillRect := mkFillRect {
  rect_x : Z;
  rect_y : Z;
  rect_w : Z;
  rect_h : Z
}.

(** [displayGpsIntervalBar], on a display present ([PIN_OLED_SDA]): the bar
    it paints, if any.  [SCREEN_WIDTH] and [SCREEN_HEIGHT] are macros
    defined outside module_aat.cpp. *)
Definition displayGpsIntervalBar (SCREEN_WIDTH SCREEN_HEIGHT : Z)
    (now : Z) (s : AatModule) : option (option FillRect) :=
  if negb (_gpsAvgUpdateInterval s =? 0) then
    gpsIntervalPct <- calcGpsIntervalPct now s ;;
    let pxHeight :=
      uint8 (umul32 SCREEN_HEIGHT (usub32 100 gpsIntervalPct) / 100) in
    Some (Some (mkFillRect (sub32 SCREEN_WIDTH 3)
                           (sub32 SCREEN_HEIGHT pxHeight) 2 pxHeight))
  else Some None.

(** The lowest position the azimuth axis is ever steered to: half a range
    below its low bound, times 100. *)
Definition servo_azim_floor (c : Config) : Z :=
  100 * GetAatServoLow c IDX_AZIM
  - 50 * (GetAatServoHigh c IDX_AZIM - GetAatServoLow c IDX_AZIM).

(** ** Well-formed configurations and states *)

(** The options are within their storage types and every axis has a
    non-empty range: low and high bounds are 16-bit microsecond counts,
    the smoothing factor and the satellite minimum are 8-bit counts. *)
Definition config_ok (c : Config) : Prop :=
  (forall idx,
      0 <= GetAatServoLow c idx
      /\ GetAatServoLow c idx < GetAatServoHigh c idx
      /\ GetAatServoHigh c idx < 2 ^ 16)
  /\ 0 <= GetAatServoSmooth c < 2 ^ 8
  /\ 0 <= GetAatSatelliteHomeMin c < 2 ^ 8.

(** The position of an axis is within its configured bounds, times 100. *)
Definition servo_in_bounds (c : Config) (p : ServoPos) (idx : ServoIndex) : Prop :=
  GetAatServoLow c idx * 100 <= servo_get p idx <= GetAatServoHigh c idx * 100.

(** The target vector and the interval estimate are within the ranges
    [processGps] and [updateGpsInterval] keep them in. *)
Definition tracking_ok (s : AatModule) : Prop :=
  0 <= _targetAzim s < 360
  /\ 0 <= _targetElev s <= 90
  /\ 0 <= _targetDistance s < 2 ^ 32
  /\ 0 <= _gpsAvgUpdateInterval s <= 1000000
  /\ - 2 ^ 31 <= _azimMsPerDegree s < 2 ^ 31.

(** Both axes are where the transform can steer them: the elevation axis
    within its bounds, the azimuth axis between its floor and its high
    bound. *)
Definition servo_within_reach (c : Config) (p : ServoPos) : Prop :=
  servo_azim_floor c <= pos_azim p <= GetAatServoHigh c IDX_AZIM * 100
  /\ servo_in_bounds c p IDX_ELEV.

(** Every record of the run has fewer satellites than [n]. *)
Definition few_satellites (n : Z) (evs : list Event) : Prop :=
  Forall (fun ev => match ev with
                    | Gps p => p_satcnt p < n
                    | Tick _ => True
                    end) evs.

(** ** Machine integers: basic facts *)

(** Linear arithmetic with quotients and remainders by constants. *)
Ltac zdiv := Z.to_euclidean_division_equations; lia.

Lemma uint32_range (z : Z) : 0 <= uint32 z < 2 ^ 32.
Proof. unfold uint32. apply Z.mod_pos_bound. lia. Qed.

Lemma uint32_small (z : Z) : 0 <= z < 2 ^ 32 -> uint32 z = z.
Proof. intros H. unfold uint32. apply Z.mod_small. exact H. Qed.

Lemma int32_range (z : Z) : - 2 ^ 31 <= int32 z < 2 ^ 31.
Proof.
  unfold int32.
  pose proof (Z.mod_pos_bound (z + 2 ^ 31) (2 ^ 32) ltac:(lia)). lia.
Qed.

Lemma int32_small (z : Z) : - 2 ^ 31 <= z < 2 ^ 31 -> int32 z = z.
Proof.
  intros H. unfold int32. rewrite Z.mod_small; lia.
Qed.

Lemma uint16_small (z : Z) : 0 <= z < 2 ^ 16 -> uint16 z = z.
Proof. intros H. unfold uint16. apply Z.mod_small. exact H. Qed.

Lemma uint8_small (z : Z) : 0 <= z < 2 ^ 8 -> uint8 z = z.
Proof. intros H. unfold uint8. apply Z.mod_small. exact H. Qed.

Lemma constrain_range (amt low high : Z) :
  low <= high -> low <= constrain amt low high <= high.
Proof.
  intros H. unfold constrain.
  destruct (amt <? low) eqn:E1; [lia|].
  destruct (high <? amt) eqn:E2; lia.
Qed.

Lemma constrain_inside (amt low high : Z) :
  low <= amt <= high -> constrain amt low high = amt.
Proof.
  intros H. unfold constrain.
  destruct (amt <? low) eqn:E1; [lia|].
  destruct (high <? amt) eqn:E2; lia.
Qed.

Lemma GPS_UPDATE_INTERVAL_MAX_eq : GPS_UPDATE_INTERVAL_MAX = 1000000.
Proof. reflexivity. Qed.

(** ** The conversion to [float] *)

Lemma float_of_int32_exact (n : Z) :
  Z.abs n <= 2 ^ 24 -> float_of_int32 n = n.
Proof.
  intros H. unfold float_of_int32.
  destruct (Z.eq_dec (Z.abs n) (2 ^ 24)) as [E|E].
  - rewrite E. change (Z.log2 (2 ^ 24) - 23 <=? 0) with false.
    cbv beta iota zeta.
    change (Z.log2 (2 ^ 24) - 23) with 1.
    change (2 ^ 24 mod 2 ^ 1) with 0. change (2 ^ (1 - 1)) with 1.
    change (2 ^ 24 / 2 ^ 1) with (2 ^ 23).
    cbn [Z.ltb Z.compare Z.eqb orb andb].
    replace (2 ^ 23 * 2 ^ 1) with (Z.abs n) by (rewrite E; reflexivity).
    lia.
  - destruct (Z.eq_dec n 0) as [->|N]; [reflexivity|].
    assert (Hl : Z.log2 (Z.abs n) < 24) by (apply Z.log2_lt_pow2; lia).
    destruct (Z.log2 (Z.abs n) - 23 <=? 0) eqn:E0; [reflexivity | lia].
Qed.

Lemma float_of_int32_opp (n : Z) : float_of_int32 (- n) = - float_of_int32 n.
Proof.
  unfold float_of_int32. rewrite Z.abs_opp, Z.sgn_opp.
  destruct (Z.log2 (Z.abs n) - 23 <=? 0); [reflexivity|]. cbv zeta. lia.
Qed.

(** The magnitude after rounding, and how far rounding moves a value. *)
Lemma float_of_int32_abs (n : Z) :
  0 <= Z.sgn n * float_of_int32 n
  /\ float_of_int32 n = Z.sgn n * Z.abs (float_of_int32 n)
  /\ (n <> 0 -> float_of_int32 n <> 0).
Proof.
  unfold float_of_int32.
  destruct (Z.log2 (Z.abs n) - 23 <=? 0) eqn:E0; [lia|]. cbv zeta.
  set (e := Z.log2 (Z.abs n) - 23) in *.
  assert (He : 0 < e) by lia.
  assert (Hp : 0 < 2 ^ e) by (apply Z.pow_pos_nonneg; lia).
  assert (Hn : n <> 0) by (intros ->; cbn in E0; discriminate).
  assert (Hl : 2 ^ Z.log2 (Z.abs n) <= Z.abs n)
    by (apply Z.log2_spec; lia).
  assert (Hq : 1 <= Z.abs n / 2 ^ e).
  { apply Z.div_le_lower_bound; [lia|].
    rewrite Z.mul_1_r. etransitivity; [|exact Hl].
    apply Z.pow_le_mono_r; lia. }
  match goal with |- context [if ?c then ?x else ?y] =>
    set (q' := if c then x else y);
    assert (Hq' : 1 <= q') by (unfold q'; destruct c; lia)
  end.
  assert (0 < q' * 2 ^ e) by nia.
  repeat split; nia.
Qed.


(** ** The interval filter *)

Lemma updateGpsInterval_le_max (interval avg : Z) :
  0 <= updateGpsInterval interval avg <= 1000000.
Proof.
  unfold updateGpsInterval.
  rewrite GPS_UPDATE_INTERVAL_MAX_eq.
  match goal with |- context [uadd32 ?a ?b] =>
    pose proof (uint32_range (a + b)); fold (uadd32 a b) in *;
    destruct (1000000 <? uadd32 a b) eqn:E
  end; lia.
Qed.

Lemma updateGpsInterval_exact (interval avg : Z) :
  0 <= interval -> interval * 100 < 2 ^ 31 -> 0 <= avg <= 1000000 ->
  updateGpsInterval interval avg
  = Z.min (avg + Z.quot (interval * 100 - avg) 4) 1000000.
Proof.
  intros Hi Hs Ha. unfold updateGpsInterval.
  rewrite GPS_UPDATE_INTERVAL_MAX_eq.
  unfold umul32, sub32, uadd32.
  rewrite (uint32_small (interval * 100)) by lia.
  rewrite (int32_small (interval * 100)) by lia.
  rewrite (int32_small avg) by lia.
  rewrite (int32_small (interval * 100 - avg)) by lia.
  assert (Hq : - avg <= 4 * Z.quot (interval * 100 - avg) 4 <= 2 ^ 31)
    by zdiv.
  rewrite uint32_small by lia.
  destruct (1000000 <? avg + Z.quot (interval * 100 - avg) 4) eqn:E; lia.
Qed.

Lemma updateGpsInterval_1000_step (a : Z) :
  0 <= a < 100000 ->
  a <= updateGpsInterval 1000 a < 100000.
Proof.
  intros Ha.
  rewrite updateGpsInterval_exact by lia.
  change (1000 * 100) with 100000.
  assert (0 <= 4 * Z.quot (100000 - a) 4 <= 100000 - a) by zdiv.
  lia.
Qed.

Lemma updateGpsInterval_1000_iter (n : nat) :
  0 <= Nat.iter n (updateGpsInterval 1000) 0 < 100000.
Proof.
  induction n as [|n IH]; simpl; [lia|].
  pose proof (updateGpsInterval_1000_step _ IH). lia.
Qed.

(** ** Distance and bearing *)

Lemma normalizeHdg_range (hdg : Z) : 0 <= normalizeHdg hdg < 360.
Proof. unfold normalizeHdg. apply Z.mod_pos_bound. lia. Qed.

Lemma calcDistAndAzimuth_dist_range (srcLat srcLon dstLat dstLon : Z) :
  0 <= fst (calcDistAndAzimuth srcLat srcLon dstLat dstLon) < 2 ^ 32.
Proof. unfold calcDistAndAzimuth. cbn [fst]. apply uint32_range. Qed.

Lemma calcDistAndAzimuth_azim_range (srcLat srcLon dstLat dstLon : Z) :
  0 <= snd (calcDistAndAzimuth srcLat srcLon dstLat dstLon) < 360.
Proof. unfold calcDistAndAzimuth. cbn [snd]. apply normalizeHdg_range. Qed.

(** ** The azimuth delta and the rate *)

Lemma azimDelta_range (azimuth targetAzim : Z) :
  - 180 <= azimDelta azimuth targetAzim < 180.
Proof.
  unfold azimDelta.
  set (m := uadd32 (usub32 azimuth targetAzim) 540 mod 360).
  assert (Hm : 0 <= m < 360) by (apply Z.mod_pos_bound; lia).
  unfold usub32, uint32, int32. zdiv.
Qed.

Lemma azimDelta_congr (azimuth targetAzim : Z) :
  0 <= azimuth < 360 -> 0 <= targetAzim < 360 ->
  (azimDelta azimuth targetAzim - (azimuth - targetAzim)) mod 360 = 0.
Proof.
  intros Ha Ht. unfold azimDelta, uadd32, usub32, uint32, int32. zdiv.
Qed.

Lemma quot_abs_le (a b : Z) : b <> 0 -> Z.abs (Z.quot a b) <= Z.abs a.
Proof.
  intros Hb. rewrite <- Z.quot_abs by exact Hb.
  rewrite Z.quot_div_nonneg by lia.
  apply Z.div_le_upper_bound; nia.
Qed.

Lemma msPerDegree_total (interval delta : Z) :
  msPerDegree interval delta
  = Some (if delta =? 0 then 0 else int32 (Z.quot (int32 interval) delta)).
Proof.
  unfold msPerDegree, c_div. destruct (delta =? 0); reflexivity.
Qed.

Lemma msPerDegree_exact (interval delta : Z) :
  0 <= interval < 2 ^ 31 -> delta <> 0 ->
  msPerDegree interval delta = Some (Z.quot interval delta).
Proof.
  intros Hi Hd. rewrite msPerDegree_total.
  destruct (delta =? 0) eqn:E; [lia|].
  rewrite (int32_small interval) by lia.
  rewrite int32_small; [reflexivity|].
  pose proof (quot_abs_le interval delta Hd). lia.
Qed.

(** ** What [processGps] does, case by case *)

Arguments calcDistAndAzimuth : simpl never.
Arguments calcElevation : simpl never.
Arguments updateGpsInterval : simpl never.
Arguments processInterval : simpl never.
Arguments azimDelta : simpl never.
Arguments uint16 : simpl never.
Arguments uint8 : simpl never.

Section ProcessGps.

Variable isHomeSet : Home -> bool.
Variable config : Config.

Lemma processGps_not_updated (now : Z) (s : AatModule) :
  updated (_gpsLast s) = false ->
  processGps isHomeSet config now s = Some s.
Proof.
  intros Hu. unfold processGps. rewrite Hu. reflexivity.
Qed.

Lemma processGps_rejected (now : Z) (s : AatModule) :
  updated (_gpsLast s) = true ->
  isHomeSet (_home s) = false ->
  satcnt (_gpsLast s) < GetAatSatelliteHomeMin config ->
  processGps isHomeSet config now s = Some (consumeFix now s).
Proof.
  intros Hu Hh Hs. unfold processGps. rewrite Hu. cbn.
  rewrite Hh. cbn.
  destruct (GetAatSatelliteHomeMin config <=? satcnt (_gpsLast s)) eqn:E;
    [lia|]. reflexivity.
Qed.

Lemma processGps_latch (now : Z) (s : AatModule) :
  updated (_gpsLast s) = true ->
  isHomeSet (_home s) = false ->
  GetAatSatelliteHomeMin config <= satcnt (_gpsLast s) ->
  let g := _gpsLast s in
  let home := fixPosition g in
  processGps isHomeSet config now s
  = Some (set_target (fixDistance home g) (uint16 (fixAzimuth home g))
                     (fixElevation home g)
                     (set_home home (consumeFix now s))).
Proof.
  intros Hu Hh Hs. unfold processGps. rewrite Hu. cbn.
  rewrite Hh. cbn.
  destruct (GetAatSatelliteHomeMin config <=? satcnt (_gpsLast s)) eqn:E;
    [|lia]. cbn.
  unfold fixElevation, fixDistance, fixAzimuth, fixPosition. cbn.
  destruct (calcDistAndAzimuth _ _ _ _) as [d a]. reflexivity.
Qed.

Lemma processGps_track (now : Z) (s : AatModule) :
  updated (_gpsLast s) = true ->
  isHomeSet (_home s) = true ->
  let g := _gpsLast s in
  let home := _home s in
  let interval := processInterval now s in
  let delta := azimDelta (fixAzimuth home g) (_targetAzim s) in
  processGps isHomeSet config now s
  = Some (set_target (fixDistance home g) (uint16 (fixAzimuth home g))
            (fixElevation home g)
            (set_azimMsPerDegree
               (if delta =? 0 then 0
                else int32 (Z.quot (int32 interval) delta))
               (set_gpsAvgUpdateInterval
                  (updateGpsInterval interval (_gpsAvgUpdateInterval s))
                  (consumeFix now s)))).
Proof.
  intros Hu Hh. unfold processGps. rewrite Hu. cbn.
  rewrite Hh. cbn.
  unfold fixElevation, fixDistance, fixAzimuth. cbn.
  destruct (calcDistAndAzimuth _ _ _ _) as [d a]. cbn.
  rewrite msPerDegree_total. reflexivity.
Qed.

(** [processGps] always returns: its one division by a variable is
    guarded. *)
Lemma processGps_total (now : Z) (s : AatModule) :
  exists s', processGps isHomeSet config now s = Some s'.
Proof.
  destruct (updated (_gpsLast s)) eqn:Hu.
  - destruct (isHomeSet (_home s)) eqn:Hh.
    + eexists. apply processGps_track; assumption.
    + destruct (Z_lt_ge_dec (satcnt (_gpsLast s))
                            (GetAatSatelliteHomeMin config)).
      * eexists. apply processGps_rejected; assumption.
      * eexists. apply processGps_latch; try assumption. lia.
  - eexists. apply processGps_not_updated; assumption.
Qed.

End ProcessGps.

(** ** Frame of [servoUpdate] and [Loop] *)

Section Frames.

Variable isHomeSet : Home -> bool.
Variable config : Config.

Lemma servoUpdate_frame (now : Z) (s s' : AatModule) :
  servoUpdate config now s = Some s' ->
  _gpsLast s' = _gpsLast s
  /\ _home s' = _home s
  /\ _gpsAvgUpdateInterval s' = _gpsAvgUpdateInterval s
  /\ _targetDistance s' = _targetDistance s
  /\ _targetAzim s' = _targetAzim s
  /\ _targetElev s' = _targetElev s
  /\ _azimMsPerDegree s' = _azimMsPerDegree s.
Proof.
  unfold servoUpdate.
  destruct (usub32 now (_lastServoUpdateMs s) <? 20).
  - intros E. inversion E. subst. repeat split.
  - destruct (calcProjectedAzim _ _ _) as [pa|]; [|discriminate]. cbn [bind].
    destruct (newServoPos _ _ _ IDX_AZIM) as [na|]; [|discriminate]. cbn [bind].
    destruct (newServoPos _ _ _ IDX_ELEV) as [ne|]; [|discriminate]. cbn [bind].
    destruct (servoStep _ IDX_AZIM _ _) as [a|]; [|discriminate]. cbn [bind].
    destruct (servoStep _ IDX_ELEV _ _) as [e|]; [|discriminate]. cbn [bind].
    intros E. inversion E. subst. repeat split.
Qed.

Lemma processGps_keeps_home (now : Z) (s s' : AatModule) :
  isHomeSet (_home s) = true ->
  processGps isHomeSet config now s = Some s' ->
  _home s' = _home s.
Proof.
  intros Hh E.
  destruct (updated (_gpsLast s)) eqn:Hu.
  - rewrite processGps_track in E by assumption.
    inversion E. reflexivity.
  - rewrite processGps_not_updated in E by assumption.
    inversion E. reflexivity.
Qed.

Lemma Loop_keeps_home (now : Z) (s s' : AatModule) :
  isHomeSet (_home s) = true ->
  Loop isHomeSet config now s = Some s' ->
  _home s' = _home s.
Proof.
  intros Hh. unfold Loop.
  destruct (processGps isHomeSet config now s) as [s1|] eqn:E1;
    [|discriminate]. cbn [bind].
  pose proof (processGps_keeps_home _ _ _ Hh E1) as H1.
  destruct (isHomeSet (_home s1) && (DELAY_FIRST_UPDATE <? now)).
  - intros E2. apply servoUpdate_frame in E2.
    destruct E2 as (_ & E2 & _). congruence.
  - intros E2. inversion E2. subst. exact H1.
Qed.

Lemma run_keeps_home (evs : list Event) :
  forall s s',
    isHomeSet (_home s) = true ->
    run isHomeSet config evs s = Some s' ->
    _home s' = _home s.
Proof.
  induction evs as [|ev evs IH]; intros s s' Hh E.
  - inversion E. reflexivity.
  - destruct ev as [p|now]; cbn [run] in E.
    + apply IH in E; [exact E | exact Hh].
    + destruct (Loop isHomeSet config now s) as [s1|] eqn:E1;
        [|discriminate]. cbn [bind] in E.
      pose proof (Loop_keeps_home _ _ _ Hh E1) as H1.
      apply IH in E; [congruence | rewrite H1; exact Hh].
Qed.

(** A rejected record leaves the servos alone: home is still unset, so
    [Loop] does not reach [servoUpdate]. *)
Lemma Loop_rejected (now : Z) (s : AatModule) :
  updated (_gpsLast s) = true ->
  isHomeSet (_home s) = false ->
  satcnt (_gpsLast s) < GetAatSatelliteHomeMin config ->
  Loop isHomeSet config now s = Some (consumeFix now s).
Proof.
  intros Hu Hh Hs. unfold Loop.
  rewrite processGps_rejected by assumption. cbn [bind].
  change (_home (consumeFix now s)) with (_home s). rewrite Hh.
  reflexivity.
Qed.

End Frames.

(** ** Home latching *)

Section HomeLatching.

Variable isHomeSet : Home -> bool.
Variable config : Config.

(** C4, as the code has it.  While home is unset, a fresh record with at
    least the configured number of satellites puts its position into home
    and leaves the average interval and the rate estimate alone; home then
    counts as set exactly when [isHomeSet] holds of that position, and if
    it does, no run of records and ticks changes home any more.  A fresh
    record with fewer satellites leaves home unset as it was, changes
    nothing of the target vector, the estimates or the servo positions,
    and [Loop] does not drive the servos.  Once [isHomeSet] holds, no run
    of records and ticks changes home.  A record with enough satellites at
    the position the constructor leaves in home, taken while that counts
    as unset, leaves home unset. *)
Theorem home_latched_once :
  (forall now s,
      updated (_gpsLast s) = true ->
      isHomeSet (_home s) = false ->
      GetAatSatelliteHomeMin config <= satcnt (_gpsLast s) ->
      exists s',
        processGps isHomeSet config now s = Some s'
        /\ _home s' = fixPosition (_gpsLast s)
        /\ _gpsAvgUpdateInterval s' = _gpsAvgUpdateInterval s
        /\ _azimMsPerDegree s' = _azimMsPerDegree s
        /\ isHomeSet (_home s') = isHomeSet (fixPosition (_gpsLast s))
        /\ (isHomeSet (fixPosition (_gpsLast s)) = true ->
            forall evs s'',
              run isHomeSet config evs s' = Some s'' ->
              _home s'' = fixPosition (_gpsLast s)))
  /\ (forall now s,
         updated (_gpsLast s) = true ->
         isHomeSet (_home s) = false ->
         satcnt (_gpsLast s) < GetAatSatelliteHomeMin config ->
         exists s',
           processGps isHomeSet config now s = Some s'
           /\ Loop isHomeSet config now s = Some s'
           /\ _home s' = _home s
           /\ _targetDistance s' = _targetDistance s
           /\ _targetAzim s' = _targetAzim s
           /\ _targetElev s' = _targetElev s
           /\ _gpsAvgUpdateInterval s' = _gpsAvgUpdateInterval s
           /\ _azimMsPerDegree s' = _azimMsPerDegree s
           /\ _servoPos s' = _servoPos s)
  /\ (forall evs s s',
         isHomeSet (_home s) = true ->
         run isHomeSet config evs s = Some s' ->
         _home s' = _home s)
  /\ (forall now s,
         isHomeSet (_home AatModule_new) = false ->
         updated (_gpsLast s) = true ->
         isHomeSet (_home s) = false ->
         GetAatSatelliteHomeMin config <= satcnt (_gpsLast s) ->
         fixPosition (_gpsLast s) = _home AatModule_new ->
         exists s',
           processGps isHomeSet config now s = Some s'
           /\ _home s' = _home AatModule_new
           /\ isHomeSet (_home s') = false).
Proof.
  split; [|split; [|split]].
  - intros now s Hu Hh Hs. eexists. split.
    + apply processGps_latch; assumption.
    + cbn [_home _gpsAvgUpdateInterval _azimMsPerDegree set_target set_home
           consumeFix set_gpsLast].
      repeat split.
      intros Hset evs s'' E.
      apply run_keeps_home in E; [exact E | exact Hset].
  - intros now s Hu Hh Hs. exists (consumeFix now s). split; [|split].
    + apply processGps_rejected; assumption.
    + apply Loop_rejected; assumption.
    + repeat split.
  - intros evs s s'. apply run_keeps_home.
  - intros now s H0 Hu Hh Hs Hp. eexists. split.
    + apply processGps_latch; assumption.
    + cbn [_home set_target set_home]. rewrite Hp.
      split; [reflexivity | exact H0].
Qed.

(** The zero position is the constructor's: whatever [isHomeSet] is, if it
    takes the constructed home for unset, a record at latitude 0,
    longitude 0 and altitude 0 with enough satellites is taken as home and
    home still counts as unset afterwards. *)
Remark latch_at_zero_position (now : Z) (s : AatModule) :
  isHomeSet (_home AatModule_new) = false ->
  updated (_gpsLast s) = true ->
  isHomeSet (_home s) = false ->
  GetAatSatelliteHomeMin config <= satcnt (_gpsLast s) ->
  fixPosition (_gpsLast s) = mkHome 0 0 0 ->
  exists s',
    processGps isHomeSet config now s = Some s'
    /\ _home s' = mkHome 0 0 0
    /\ isHomeSet (_home s') = false.
Proof.
  intros H0 Hu Hh Hs Hp. eexists. split.
  - apply processGps_latch; assumption.
  - cbn [_home set_target set_home]. rewrite Hp. split; [reflexivity|].
    exact H0.
Qed.

(** C10.  A fresh record processed while home is unset and with too few
    satellites only has its fresh flag cleared and its timestamp set to
    [now]; the interval the next record measures then starts at [now]. *)
Theorem rejected_fix_is_stamped (now : Z) (s : AatModule) :
  updated (_gpsLast s) = true ->
  isHomeSet (_home s) = false ->
  satcnt (_gpsLast s) < GetAatSatelliteHomeMin config ->
  processGps isHomeSet config now s = Some (consumeFix now s)
  /\ updated (_gpsLast (consumeFix now s)) = false
  /\ lastUpdateMs (_gpsLast (consumeFix now s)) = now
  /\ consumeFix now s
     = mkAatModule
         (mkGpsLast (lat (_gpsLast s)) (lon (_gpsLast s))
            (speed (_gpsLast s)) (heading (_gpsLast s))
            (altitude (_gpsLast s)) now (satcnt (_gpsLast s)) false)
         (_home s) (_gpsAvgUpdateInterval s) (_lastServoUpdateMs s)
         (_targetDistance s) (_targetAzim s) (_targetElev s)
         (_azimMsPerDegree s) (_servoPos s)
  /\ isHomeSet (_home (consumeFix now s)) = false
  /\ (forall p now',
         processInterval now' (SendGpsTelemetry p (consumeFix now s))
         = usub32 now' now).
Proof.
  intros Hu Hh Hs. split; [|split; [|split; [|split; [|split]]]].
  - apply processGps_rejected; assumption.
  - reflexivity.
  - reflexivity.
  - reflexivity.
  - exact Hh.
  - intros p now'. reflexivity.
Qed.

(** C7.  On a fresh record processed with home set, [processGps] returns
    (no division by zero happens); the azimuth delta lies in [-180, 180]
    and, for a previous azimuth below 360, is congruent modulo 360 to the
    difference of the two azimuths; the stored rate is 0 when the delta is
    0 and the quotient of the interval, read as an [int32_t], by the delta
    otherwise, which is interval / delta for an interval below 2^31 ms. *)
Theorem rate_guards_zero_delta (now : Z) (s : AatModule) :
  updated (_gpsLast s) = true ->
  isHomeSet (_home s) = true ->
  let interval := processInterval now s in
  let delta := azimDelta (fixAzimuth (_home s) (_gpsLast s)) (_targetAzim s) in
  exists s',
    processGps isHomeSet config now s = Some s'
    /\ - 180 <= delta <= 180
    /\ (0 <= _targetAzim s < 360 ->
        (delta - (fixAzimuth (_home s) (_gpsLast s) - _targetAzim s)) mod 360
        = 0)
    /\ (delta = 0 -> _azimMsPerDegree s' = 0)
    /\ (delta <> 0 ->
        msPerDegree interval delta = c_div (int32 interval) delta
        /\ _azimMsPerDegree s' = int32 (Z.quot (int32 interval) delta))
    /\ (delta <> 0 -> interval < 2 ^ 31 ->
        _azimMsPerDegree s' = Z.quot interval delta).
Proof.
  intros Hu Hh interval delta.
  eexists. split; [apply processGps_track; assumption|].
  fold interval. fold delta. cbn [_azimMsPerDegree set_target set_azimMsPerDegree].
  pose proof (azimDelta_range (fixAzimuth (_home s) (_gpsLast s))
                              (_targetAzim s)) as Hr.
  fold delta in Hr.
  split; [lia|]. split.
  { intros Ht. apply azimDelta_congr; [|exact Ht].
    apply calcDistAndAzimuth_azim_range. }
  split.
  { intros Hd. rewrite Hd. reflexivity. }
  split.
  { intros Hd. split.
    - unfold msPerDegree. destruct (delta =? 0) eqn:E; [lia|reflexivity].
    - destruct (delta =? 0) eqn:E; [lia|reflexivity]. }
  intros Hd Hi.
  destruct (delta =? 0) eqn:E; [lia|].
  assert (0 <= interval < 2 ^ 31) as Hi'.
  { split; [|exact Hi]. apply uint32_range. }
  rewrite (int32_small interval) by lia.
  apply int32_small.
  pose proof (quot_abs_le interval delta Hd). lia.
Qed.

End HomeLatching.

(** ** Staleness percentage *)

Lemma calcGpsIntervalPct_range (now : Z) (s : AatModule) :
  0 <= _gpsAvgUpdateInterval s < 2 ^ 32 ->
  exists pct, calcGpsIntervalPct now s = Some pct /\ 0 <= pct <= 100.
Proof.
  intros Ha. unfold calcGpsIntervalPct.
  destruct (_gpsAvgUpdateInterval s =? 0) eqn:E; cbn [negb].
  - exists 0. split; [reflexivity | lia].
  - unfold u_div. rewrite (uint32_small _ Ha). rewrite E. cbn [bind].
    eexists. split; [reflexivity|].
    match goal with |- context [constrain ?a 0 100] =>
      pose proof (constrain_range a 0 100 ltac:(lia)) as Hc
    end.
    rewrite uint8_small; lia.
Qed.

Lemma calcGpsIntervalPct_no_estimate (now : Z) (s : AatModule) :
  _gpsAvgUpdateInterval s = 0 -> calcGpsIntervalPct now s = Some 0.
Proof.
  intros E. unfold calcGpsIntervalPct. rewrite E. reflexivity.
Qed.

Lemma calcGpsIntervalPct_exact (now : Z) (s : AatModule) :
  0 < _gpsAvgUpdateInterval s < 2 ^ 32 ->
  let elapsed := usub32 now (lastUpdateMs (_gpsLast s)) in
  elapsed * 10000 < 2 ^ 32 ->
  calcGpsIntervalPct now s
  = Some (constrain (elapsed * 10000 / _gpsAvgUpdateInterval s) 0 100).
Proof.
  intros Ha elapsed He. unfold calcGpsIntervalPct.
  destruct (_gpsAvgUpdateInterval s =? 0) eqn:E; [lia|]. cbn [negb].
  unfold u_div. rewrite (uint32_small (_gpsAvgUpdateInterval s)) by lia.
  rewrite E. cbn [bind]. fold elapsed.
  change (umul32 100 100) with 10000.
  assert (0 <= elapsed) by apply uint32_range.
  unfold umul32. rewrite (uint32_small (elapsed * 10000)) by lia.
  match goal with |- context [constrain ?a 0 100] =>
    pose proof (constrain_range a 0 100 ltac:(lia)) as Hc
  end.
  rewrite uint8_small by lia. reflexivity.
Qed.

(** C9, as the code has it.  With no estimate yet the percentage is 0;
    with an estimate, and [elapsed] the time since the last processed
    record as the wrap-safe difference [(now - lastUpdateMs) mod 2^32],
    the percentage is [clamp (elapsed * 10000 / avgInterval, 0, 100)]
    whenever [elapsed * 10000] fits 32 bits; in every case the result is
    within [0, 100]. *)
Theorem calcGpsIntervalPct_wrap_safe (now : Z) (s : AatModule) :
  0 <= _gpsAvgUpdateInterval s < 2 ^ 32 ->
  let elapsed := usub32 now (lastUpdateMs (_gpsLast s)) in
  (_gpsAvgUpdateInterval s = 0 -> calcGpsIntervalPct now s = Some 0)
  /\ (_gpsAvgUpdateInterval s <> 0 ->
      elapsed * 10000 < 2 ^ 32 ->
      calcGpsIntervalPct now s
      = Some (constrain (elapsed * 10000 / _gpsAvgUpdateInterval s) 0 100))
  /\ (exists pct, calcGpsIntervalPct now s = Some pct /\ 0 <= pct <= 100).
Proof.
  intros Ha elapsed. split; [|split].
  - apply calcGpsIntervalPct_no_estimate.
  - intros Hn He. apply calcGpsIntervalPct_exact; [lia | exact He].
  - apply calcGpsIntervalPct_range. exact Ha.
Qed.

(** ** Projection: the fall-back *)

Section Projection.

Variable config : Config.

Lemma calcProjectedAzim_fallback (now : Z) (s : AatModule) :
  GetAatProject config = false
  \/ _gpsAvgUpdateInterval s = 0
  \/ _azimMsPerDegree s = 0
  \/ _targetDistance s <= 3 ->
  calcProjectedAzim config now s = Some (_targetAzim s).
Proof.
  intros H. unfold calcProjectedAzim.
  destruct H as [H|[H|[H|H]]].
  - rewrite H. reflexivity.
  - rewrite H. cbn. rewrite andb_false_r. reflexivity.
  - rewrite H. cbn. rewrite !andb_false_r. reflexivity.
  - destruct (3 <? _targetDistance s) eqn:E; [lia|].
    rewrite !andb_false_r. reflexivity.
Qed.

(** C8.  When projection is disabled, or the average interval is 0, or the
    rate is 0, or the target is at most 3 m away, [calcProjectedAzim]
    returns the stored target azimuth whatever [now] is, so any two calls
    in that state agree. *)
Theorem calcProjectedAzim_returns_stored (s : AatModule) :
  GetAatProject config = false
  \/ _gpsAvgUpdateInterval s = 0
  \/ _azimMsPerDegree s = 0
  \/ _targetDistance s <= 3 ->
  (forall now, calcProjectedAzim config now s = Some (_targetAzim s))
  /\ (forall now now',
         calcProjectedAzim config now s = calcProjectedAzim config now' s).
Proof.
  intros H. split.
  - intros now. apply calcProjectedAzim_fallback. exact H.
  - intros now now'. rewrite !calcProjectedAzim_fallback by exact H.
    reflexivity.
Qed.

End Projection.

(** ** Projection: the active branch *)

Lemma quot_between (d k : Z) :
  0 < k ->
  (0 <= d -> 0 <= Z.quot d k <= d) /\ (d <= 0 -> d <= Z.quot d k <= 0).
Proof.
  intros Hk.
  pose proof (quot_abs_le d k ltac:(lia)) as Ha.
  split; intros Hd.
  - pose proof (Z.quot_pos d k Hd Hk). lia.
  - assert (E : Z.quot d k = - Z.quot (- d) k).
    { rewrite Z.quot_opp_l by lia. lia. }
    pose proof (Z.quot_pos (- d) k ltac:(lia) Hk). lia.
Qed.

Lemma quot_limited (a b : Z) :
  0 <= a <= 10000 -> 10 <= Z.abs b -> Z.abs (Z.quot a b) <= 1000.
Proof.
  intros Ha Hb. rewrite <- Z.quot_abs by lia.
  rewrite Z.quot_div_nonneg by lia.
  apply Z.div_le_upper_bound; lia.
Qed.

Lemma azimMsPDLimited_floor (rate : Z) :
  10 <= Z.abs (azimMsPDLimited rate)
  /\ (0 < rate -> 0 < azimMsPDLimited rate)
  /\ (rate <= 0 -> azimMsPDLimited rate < 0).
Proof.
  unfold azimMsPDLimited.
  destruct (-10 <? rate) eqn:E1; destruct (rate <? 10) eqn:E2; cbn [andb];
    try destruct (0 <? rate) eqn:E3; lia.
Qed.

Section ProjectionActive.

Variable config : Config.

(** The time the projection runs over: at most one average interval. *)
Lemma elapsed_range (now : Z) (s : AatModule) :
  0 <= _gpsAvgUpdateInterval s <= 1000000 ->
  0 <= constrain (usub32 now (lastUpdateMs (_gpsLast s))) 0
                 (_gpsAvgUpdateInterval s / 100) <= 10000.
Proof.
  intros Ha.
  assert (0 <= _gpsAvgUpdateInterval s / 100 <= 10000) by zdiv.
  pose proof (constrain_range (usub32 now (lastUpdateMs (_gpsLast s))) 0
                (_gpsAvgUpdateInterval s / 100) ltac:(lia)).
  lia.
Qed.

Lemma calcProjectedAzim_active (now : Z) (s : AatModule) :
  tracking_ok s ->
  GetAatProject config = true ->
  _gpsAvgUpdateInterval s <> 0 ->
  _azimMsPerDegree s <> 0 ->
  3 < _targetDistance s ->
  let elapsed :=
    constrain (usub32 now (lastUpdateMs (_gpsLast s))) 0
              (_gpsAvgUpdateInterval s / 100) in
  calcProjectedAzim config now s
  = Some (Z.rem (Z.quot elapsed (azimMsPDLimited (_azimMsPerDegree s))
                 + _targetAzim s + 360) 360).
Proof.
  intros (Haz & _ & _ & Havg & _) Hp Ha Hr Hd elapsed.
  unfold calcProjectedAzim. rewrite Hp.
  destruct (_gpsAvgUpdateInterval s =? 0) eqn:E1; [lia|].
  destruct (_azimMsPerDegree s =? 0) eqn:E2; [lia|].
  destruct (3 <? _targetDistance s) eqn:E3; [|lia].
  cbn [negb andb]. fold elapsed.
  pose proof (elapsed_range now s Havg) as He. fold elapsed in He.
  pose proof (azimMsPDLimited_floor (_azimMsPerDegree s)) as (Hl & _).
  pose proof (quot_limited elapsed _ He Hl) as Hq.
  unfold c_div.
  destruct (azimMsPDLimited (_azimMsPerDegree s) =? 0) eqn:E4; [lia|].
  cbn [bind]. rewrite (int32_small elapsed) by lia.
  unfold add32.
  rewrite (int32_small (Z.quot _ _)) by lia.
  rewrite (int32_small (Z.quot _ _ + _)) by lia.
  rewrite int32_small by lia. reflexivity.
Qed.

(** [calcProjectedAzim] always returns, and its result is less than a full
    turn away from 0 on either side. *)
Lemma calcProjectedAzim_total (now : Z) (s : AatModule) :
  tracking_ok s ->
  exists p, calcProjectedAzim config now s = Some p /\ - 360 < p < 360.
Proof.
  intros Hok.
  destruct (GetAatProject config) eqn:Hp;
    [|eexists; split;
      [apply calcProjectedAzim_fallback; auto | destruct Hok; lia]].
  destruct (Z.eq_dec (_gpsAvgUpdateInterval s) 0) as [Ha|Ha];
    [eexists; split;
      [apply calcProjectedAzim_fallback; auto | destruct Hok; lia]|].
  destruct (Z.eq_dec (_azimMsPerDegree s) 0) as [Hr|Hr];
    [eexists; split;
      [apply calcProjectedAzim_fallback; auto | destruct Hok; lia]|].
  destruct (Z_le_gt_dec (_targetDistance s) 3) as [Hd|Hd];
    [eexists; split;
      [apply calcProjectedAzim_fallback; auto | destruct Hok; lia]|].
  eexists. split.
  - apply calcProjectedAzim_active; try assumption. lia.
  - zdiv.
Qed.

(** With a positive rate the projection is a proper azimuth. *)
Lemma calcProjectedAzim_positive_rate (now : Z) (s : AatModule) :
  tracking_ok s ->
  0 <= _azimMsPerDegree s ->
  exists p, calcProjectedAzim config now s = Some p /\ 0 <= p < 360.
Proof.
  intros Hok Hpos.
  destruct (GetAatProject config) eqn:Hp;
    [|eexists; split;
      [apply calcProjectedAzim_fallback; auto | destruct Hok; lia]].
  destruct (Z.eq_dec (_gpsAvgUpdateInterval s) 0) as [Ha|Ha];
    [eexists; split;
      [apply calcProjectedAzim_fallback; auto | destruct Hok; lia]|].
  destruct (Z.eq_dec (_azimMsPerDegree s) 0) as [Hr|Hr];
    [eexists; split;
      [apply calcProjectedAzim_fallback; auto | destruct Hok; lia]|].
  destruct (Z_le_gt_dec (_targetDistance s) 3) as [Hd|Hd];
    [eexists; split;
      [apply calcProjectedAzim_fallback; auto | destruct Hok; lia]|].
  eexists. split.
  - apply calcProjectedAzim_active; try assumption. lia.
  - destruct Hok as (Haz & _ & _ & Havg & _).
    pose proof (elapsed_range now s Havg) as He.
    pose proof (azimMsPDLimited_floor (_azimMsPerDegree s)) as (_ & Hl & _).
    specialize (Hl ltac:(lia)).
    match goal with |- context [Z.quot ?a ?b] =>
      pose proof (Z.quot_pos a b ltac:(lia) ltac:(lia))
    end.
    zdiv.
Qed.

End ProjectionActive.

(** ** The servo transform and the update policy *)

Lemma c_abs_small (x : Z) : - 2 ^ 31 < x < 2 ^ 31 -> c_abs x = Z.abs x.
Proof.
  intros H. unfold c_abs. destruct (0 <? x) eqn:E; [lia|].
  rewrite int32_small; lia.
Qed.

Lemma map_exact (x n lo hi : Z) :
  0 < n <= 360 -> - 360 < x < 360 -> 0 <= lo -> lo < hi -> hi < 2 ^ 16 ->
  map x 0 n lo hi = Some (Z.quot (x * (hi - lo)) n + lo).
Proof.
  intros Hn Hx Hlo Hlt Hhi. unfold map, sub32, mul32, add32.
  rewrite Z.sub_0_r. rewrite (int32_small x) by lia.
  rewrite Z.sub_0_r. rewrite (int32_small n) by lia.
  rewrite (int32_small (hi - lo)) by lia.
  assert (Hp : Z.abs (x * (hi - lo)) <= 360 * 2 ^ 16) by nia.
  rewrite (int32_small (x * (hi - lo))) by lia.
  unfold c_div. destruct (n =? 0) eqn:E; [lia|]. cbn [bind].
  pose proof (quot_abs_le (x * (hi - lo)) n ltac:(lia)) as Hq.
  rewrite (int32_small (Z.quot _ _)) by lia.
  rewrite int32_small by lia. reflexivity.
Qed.

(** The linear map stays between its output bounds on its input domain. *)
Lemma map_quot_range (x n d : Z) :
  0 < n -> 0 <= d -> 0 <= x <= n -> 0 <= Z.quot (x * d) n <= d.
Proof.
  intros Hn Hd Hx.
  rewrite Z.quot_div_nonneg by nia. split.
  - apply Z.div_pos; nia.
  - apply Z.div_le_upper_bound; nia.
Qed.

Section Servo.

Variable config : Config.
Hypothesis Hcfg : config_ok config.

Let low := GetAatServoLow config.
Let high := GetAatServoHigh config.
Let smooth := GetAatServoSmooth config.

Lemma servoStep_exact (idx : ServoIndex) (newPos cur : Z) :
  Z.abs (newPos - cur) * 100 < 2 ^ 31 ->
  0 <= cur < 2 ^ 30 -> - 2 ^ 30 <= newPos < 2 ^ 30 ->
  servoStep config idx newPos cur
  = Some (spec_servoStep (low idx) (high idx) smooth newPos cur).
Proof.
  intros Hd Hc Hn.
  destruct Hcfg as (Hb & Hs & _). specialize (Hb idx).
  fold low high in Hb. fold smooth in Hs.
  unfold servoStep, spec_servoStep. fold low high smooth.
  unfold sub32, mul32, add32.
  rewrite (int32_small (high idx - low idx)) by lia.
  rewrite (int32_small (100 * _)) by lia.
  rewrite (int32_small (newPos - cur)) by lia.
  rewrite c_abs_small by lia.
  rewrite (int32_small (Z.abs _ * 100)) by lia.
  rewrite (int32_small (smooth + 1)) by lia.
  unfold c_div.
  destruct (100 * (high idx - low idx) =? 0) eqn:E; [lia|]. cbn [bind].
  rewrite Z.quot_div_nonneg by lia.
  assert (Hq : 0 <= Z.abs (newPos - cur) * 100 / (100 * (high idx - low idx))
               <= Z.abs (newPos - cur) * 100).
  { split; [apply Z.div_pos; lia|].
    apply Z.div_le_upper_bound; nia. }
  rewrite (int32_small (_ / _)) by lia.
  destruct (80 <? _); [reflexivity|].
  destruct (smooth + 1 =? 0) eqn:E2; [lia|]. cbn [bind].
  pose proof (quot_abs_le (newPos - cur) (smooth + 1) ltac:(lia)) as Hk.
  rewrite (int32_small (Z.quot _ _)) by lia.
  rewrite int32_small by lia. reflexivity.
Qed.

(** Jumping or smoothing, the new position is between the old one and the
    position steered to. *)
Lemma spec_servoStep_between (idx : ServoIndex) (newPos cur lo hi : Z) :
  lo <= cur <= hi -> lo <= newPos <= hi ->
  lo <= spec_servoStep (low idx) (high idx) smooth newPos cur <= hi.
Proof.
  intros Hc Hn. unfold spec_servoStep.
  destruct (80 <? _); [lia|].
  destruct Hcfg as (_ & Hs & _). fold smooth in Hs.
  pose proof (quot_between (newPos - cur) (smooth + 1) ltac:(lia))
    as [Hp Hm].
  destruct (Z_le_gt_dec 0 (newPos - cur)).
  - specialize (Hp ltac:(lia)). lia.
  - specialize (Hm ltac:(lia)). lia.
Qed.

Lemma newServoPos_elev (proj : Z) (s : AatModule) :
  0 <= _targetElev s <= 90 ->
  exists n,
    newServoPos config proj s IDX_ELEV = Some n
    /\ n = 100 * (Z.quot (_targetElev s * (high IDX_ELEV - low IDX_ELEV)) 90
                  + low IDX_ELEV)
    /\ low IDX_ELEV * 100 <= n <= high IDX_ELEV * 100.
Proof.
  intros He.
  destruct Hcfg as (Hb & _). specialize (Hb IDX_ELEV). fold low high in Hb.
  unfold newServoPos. fold low high.
  rewrite map_exact by lia. cbn [bind].
  pose proof (map_quot_range (_targetElev s) 90
                (high IDX_ELEV - low IDX_ELEV) ltac:(lia) ltac:(lia) He) as Hq.
  unfold mul32. rewrite int32_small by lia.
  eexists. split; [reflexivity|]. split; [reflexivity|]. lia.
Qed.

Lemma newServoPos_azim (proj : Z) (s : AatModule) :
  - 360 < proj < 360 ->
  let t := Z.rem (proj + 180) 360 in
  exists n,
    newServoPos config proj s IDX_AZIM = Some n
    /\ n = 100 * (Z.quot (t * (high IDX_AZIM - low IDX_AZIM)) 360
                  + low IDX_AZIM)
    /\ - (high IDX_AZIM * 100) <= n <= high IDX_AZIM * 100
    /\ (- 180 <= proj -> low IDX_AZIM * 100 <= n).
Proof.
  intros Hp t.
  destruct Hcfg as (Hb & _). specialize (Hb IDX_AZIM). fold low high in Hb.
  unfold newServoPos. fold low high.
  unfold add32. rewrite (int32_small (proj + 180)) by lia. fold t.
  assert (Ht : - 180 < t < 360) by (unfold t; zdiv).
  rewrite map_exact by lia. cbn [bind].
  pose proof (quot_abs_le (t * (high IDX_AZIM - low IDX_AZIM)) 360
                ltac:(lia)) as Hq.
  assert (Hq' : Z.abs (Z.quot (t * (high IDX_AZIM - low IDX_AZIM)) 360)
                <= high IDX_AZIM - low IDX_AZIM).
  { rewrite <- Z.quot_abs by lia. rewrite Z.quot_div_nonneg by lia.
    apply Z.div_le_upper_bound; [lia|]. nia. }
  unfold mul32. rewrite int32_small by lia.
  eexists. split; [reflexivity|]. split; [reflexivity|]. split; [lia|].
  intros Hge.
  assert (0 <= t) by (unfold t; zdiv).
  pose proof (map_quot_range t 360 (high IDX_AZIM - low IDX_AZIM)
                ltac:(lia) ltac:(lia) ltac:(lia)).
  lia.
Qed.

End Servo.

Section ServoUpdate.

Variable config : Config.
Hypothesis Hcfg : config_ok config.

Lemma servoUpdate_early (now : Z) (s : AatModule) :
  usub32 now (_lastServoUpdateMs s) < 20 ->
  servoUpdate config now s = Some s.
Proof.
  intros H. unfold servoUpdate.
  destruct (usub32 now (_lastServoUpdateMs s) <? 20) eqn:E; [reflexivity|lia].
Qed.

Lemma servoUpdate_exact (now : Z) (s : AatModule) :
  tracking_ok s ->
  (forall idx, servo_in_bounds config (_servoPos s) idx) ->
  20 <= usub32 now (_lastServoUpdateMs s) ->
  exists proj nA nE,
    calcProjectedAzim config now s = Some proj
    /\ - 360 < proj < 360
    /\ newServoPos config proj s IDX_AZIM = Some nA
    /\ (- 180 <= proj ->
        GetAatServoLow config IDX_AZIM * 100 <= nA
        <= GetAatServoHigh config IDX_AZIM * 100)
    /\ newServoPos config proj s IDX_ELEV = Some nE
    /\ GetAatServoLow config IDX_ELEV * 100 <= nE
       <= GetAatServoHigh config IDX_ELEV * 100
    /\ servoUpdate config now s
       = Some (set_servoPos
                 (mkServoPos
                    (spec_servoStep (GetAatServoLow config IDX_AZIM)
                       (GetAatServoHigh config IDX_AZIM)
                       (GetAatServoSmooth config) nA (pos_azim (_servoPos s)))
                    (spec_servoStep (GetAatServoLow config IDX_ELEV)
                       (GetAatServoHigh config IDX_ELEV)
                       (GetAatServoSmooth config) nE (pos_elev (_servoPos s))))
                 (set_lastServoUpdateMs now s)).
Proof.
  intros Hok Hb Hi.
  destruct (calcProjectedAzim_total config now s Hok) as (proj & Ep & Hp).
  destruct (newServoPos_azim config Hcfg proj s Hp) as (nA & EA & _ & HA & HA').
  assert (He : 0 <= _targetElev s <= 90) by (destruct Hok as (_ & ? & _); lia).
  destruct (newServoPos_elev config Hcfg proj s He) as (nE & EE & _ & HE).
  exists proj, nA, nE.
  split; [exact Ep|]. split; [exact Hp|]. split; [exact EA|].
  split; [intros H; specialize (HA' H); lia|].
  split; [exact EE|]. split; [exact HE|].
  pose proof (Hb IDX_AZIM) as HbA. pose proof (Hb IDX_ELEV) as HbE.
  unfold servo_in_bounds in HbA, HbE. cbn [servo_get] in HbA, HbE.
  destruct Hcfg as (Hc & _).
  pose proof (Hc IDX_AZIM) as HcA. pose proof (Hc IDX_ELEV) as HcE.
  unfold servoUpdate.
  destruct (usub32 now (_lastServoUpdateMs s) <? 20) eqn:E; [lia|].
  change (calcProjectedAzim config now (set_lastServoUpdateMs now s))
    with (calcProjectedAzim config now s).
  rewrite Ep. cbn [bind].
  change (newServoPos config proj (set_lastServoUpdateMs now s))
    with (newServoPos config proj s).
  rewrite EA, EE. cbn [bind].
  cbn [_servoPos set_lastServoUpdateMs servo_get].
  rewrite (servoStep_exact config Hcfg IDX_AZIM) by lia. cbn [bind].
  rewrite (servoStep_exact config Hcfg IDX_ELEV) by lia. cbn [bind].
  reflexivity.
Qed.

(** Whenever the projected azimuth is at least -180, one [servoUpdate]
    keeps both axes within their bounds. *)
Lemma servoUpdate_keeps_bounds (now : Z) (s s' : AatModule) (proj : Z) :
  tracking_ok s ->
  (forall idx, servo_in_bounds config (_servoPos s) idx) ->
  calcProjectedAzim config now s = Some proj ->
  - 180 <= proj ->
  servoUpdate config now s = Some s' ->
  forall idx, servo_in_bounds config (_servoPos s') idx.
Proof.
  intros Hok Hb Ep Hp E.
  destruct (Z_lt_ge_dec (usub32 now (_lastServoUpdateMs s)) 20) as [Hi|Hi].
  - rewrite servoUpdate_early in E by exact Hi.
    inversion E. subst. exact Hb.
  - destruct (servoUpdate_exact now s Hok Hb ltac:(lia))
      as (proj' & nA & nE & Ep' & _ & _ & HA & _ & HE & E').
    rewrite Ep in Ep'. inversion Ep'. subst proj'.
    specialize (HA Hp).
    rewrite E' in E. inversion E. subst s'.
    pose proof (Hb IDX_AZIM) as HbA. pose proof (Hb IDX_ELEV) as HbE.
    unfold servo_in_bounds in HbA, HbE. cbn [servo_get] in HbA, HbE.
    intros idx. unfold servo_in_bounds.
    destruct idx; cbn [servo_get _servoPos set_servoPos pos_azim pos_elev].
    + apply (spec_servoStep_between config Hcfg IDX_AZIM); lia.
    + apply (spec_servoStep_between config Hcfg IDX_ELEV); lia.
Qed.

(** [Init] puts each axis at the midpoint of its bounds. *)
Lemma Init_in_bounds (s : AatModule) (idx : ServoIndex) :
  servo_get (_servoPos (Init config s)) idx
  = Z.quot (GetAatServoLow config idx + GetAatServoHigh config idx) 2 * 100
  /\ servo_in_bounds config (_servoPos (Init config s)) idx.
Proof.
  destruct Hcfg as (Hc & _). pose proof (Hc idx) as Hi.
  assert (E : servo_get (_servoPos (Init config s)) idx
              = Z.quot (GetAatServoLow config idx
                        + GetAatServoHigh config idx) 2 * 100).
  { destruct idx; cbn; unfold mul32, add32;
      match goal with |- context [int32 (?a + ?b)] =>
        rewrite (int32_small (a + b)) by lia
      end;
      rewrite int32_small; try reflexivity; zdiv. }
  split; [exact E|].
  unfold servo_in_bounds. rewrite E. zdiv.
Qed.

End ServoUpdate.

(** ** Geodesy along a meridian *)

Section GeodesyFacts.
Local Open Scope R_scope.

Lemma PI_bounds : 3 < PI <= 4.
Proof. split; [pose proof PI2_3_2; lra | apply PI_4]. Qed.

Lemma Rtrunc_IZR (n : Z) : Rtrunc (IZR n) = n.
Proof.
  unfold Rtrunc. destruct (Rle_dec 0 (IZR n)) as [H|H].
  - symmetry. apply Int_part_spec. lra.
  - rewrite <- opp_IZR.
    rewrite <- (Int_part_spec (IZR (- n)) (- n)%Z); [lia | lra].
Qed.

Lemma Rtrunc_between (x : R) (a b : Z) :
  0 <= x -> IZR a <= x -> x < IZR b -> (a <= Rtrunc x < b)%Z.
Proof.
  intros Hx Ha Hb. unfold Rtrunc.
  destruct (Rle_dec 0 x) as [_|N]; [|lra].
  destruct (base_Int_part x) as [H1 H2]. split.
  - assert (IZR a < IZR (Int_part x + 1)) as H by (rewrite plus_IZR; lra).
    apply lt_IZR in H. lia.
  - apply lt_IZR. lra.
Qed.

Lemma DEG2RAD_0 : DEG2RAD 0 = 0.
Proof. unfold DEG2RAD. lra. Qed.

Lemma RAD2DEG_0 : RAD2DEG 0 = 0.
Proof. unfold RAD2DEG. pose proof PI_bounds. field. lra. Qed.

Lemma RAD2DEG_PI : RAD2DEG PI = 180.
Proof. unfold RAD2DEG. pose proof PI_bounds. field. lra. Qed.

Lemma atan2_0_pos (x : R) : 0 < x -> atan2 0 x = 0.
Proof.
  intros H. unfold atan2. destruct (Rlt_dec 0 x) as [_|N]; [|lra].
  replace (0 / x) with 0 by (field; lra). apply atan_0.
Qed.

Lemma atan2_0_neg (x : R) : x < 0 -> atan2 0 x = PI.
Proof.
  intros H. unfold atan2. destruct (Rlt_dec 0 x) as [P|_]; [lra|].
  destruct (Rlt_dec x 0) as [_|N]; [|lra].
  destruct (Rle_dec 0 0) as [_|N]; [|lra].
  replace (0 / x) with 0 by (field; lra). rewrite atan_0. lra.
Qed.

Lemma atan2_0_0 : atan2 0 0 = 0.
Proof.
  unfold atan2. destruct (Rlt_dec 0 0) as [P|_]; [lra|]. reflexivity.
Qed.

Lemma double_to_uint32_IZR (n : Z) :
  (0 <= n < 2 ^ 32)%Z -> double_to_uint32 (IZR n) = n.
Proof.
  intros H. unfold double_to_uint32. rewrite Rtrunc_IZR.
  apply uint32_small. exact H.
Qed.

(** Two points on one meridian: the distance is the arc between the
    latitudes and the heading is decided by the sign of their
    difference. *)
Lemma calcDistAndAzimuth_meridian (srcLat dstLat lon : Z) :
  let theta :=
    DEG2RAD (IZR (float_of_int32 dstLat) / 10000000)
    - DEG2RAD (IZR (float_of_int32 srcLat) / 10000000) in
  calcDistAndAzimuth srcLat lon dstLat lon
  = (double_to_uint32 (acos (cos theta) * 6371000),
     normalizeHdg (double_to_uint32 (RAD2DEG (atan2 0 (sin theta))))).
Proof.
  intros theta. unfold calcDistAndAzimuth.
  unfold sub32. rewrite Z.sub_diag. change (int32 0) with 0%Z.
  change (float_of_int32 0) with 0%Z.
  replace (0 / 10000000) with 0 by lra.
  rewrite DEG2RAD_0, cos_0, sin_0.
  set (a := DEG2RAD (IZR (float_of_int32 srcLat) / 10000000)) in *.
  set (b := DEG2RAD (IZR (float_of_int32 dstLat) / 10000000)) in *.
  replace (sin a * sin b + cos a * cos b * 1) with (cos theta)
    by (unfold theta; rewrite cos_minus; ring).
  replace (cos b * 0) with 0 by ring.
  replace (cos a * sin b - sin a * cos b * 1) with (sin theta)
    by (unfold theta; rewrite sin_minus; ring).
  reflexivity.
Qed.

(** The level elevation: no altitude difference, whatever the distance. *)
Lemma calcElevation_level (distance : Z) :
  (0 <= distance)%Z -> calcElevation distance 0 = 0%Z.
Proof.
  intros H. unfold calcElevation.
  assert (E : atan2 0 (IZR distance) = 0).
  { destruct (Z.eq_dec distance 0) as [->|N].
    - apply atan2_0_0.
    - apply atan2_0_pos. apply IZR_lt. lia. }
  rewrite E, RAD2DEG_0. unfold double_to_int32.
  rewrite Rtrunc_IZR. reflexivity.
Qed.

(** Two latitudes on one meridian that are the same [float]: distance 0,
    azimuth 0. *)
Lemma calcDistAndAzimuth_merged (srcLat dstLat lon : Z) :
  float_of_int32 dstLat = float_of_int32 srcLat ->
  calcDistAndAzimuth srcLat lon dstLat lon = (0%Z, 0%Z).
Proof.
  intros E. rewrite calcDistAndAzimuth_meridian. rewrite E.
  replace (DEG2RAD (IZR (float_of_int32 srcLat) / 10000000)
           - DEG2RAD (IZR (float_of_int32 srcLat) / 10000000))
    with 0 by ring.
  rewrite cos_0, sin_0, acos_1, atan2_0_0, RAD2DEG_0.
  replace (0 * 6371000) with 0 by ring.
  rewrite double_to_uint32_IZR by lia. reflexivity.
Qed.

(** A record at the home position itself: distance 0, azimuth 0. *)
Lemma calcDistAndAzimuth_same (lat lon : Z) :
  calcDistAndAzimuth lat lon lat lon = (0%Z, 0%Z).
Proof. apply calcDistAndAzimuth_merged. reflexivity. Qed.

(** Due north of home by an arc [theta]: azimuth 0. *)
Lemma meridian_north (srcLat dstLat lon : Z) :
  let theta :=
    DEG2RAD (IZR (float_of_int32 dstLat) / 10000000)
    - DEG2RAD (IZR (float_of_int32 srcLat) / 10000000) in
  0 < theta < PI ->
  calcDistAndAzimuth srcLat lon dstLat lon
  = (double_to_uint32 (theta * 6371000), 0%Z).
Proof.
  intros theta Ht. rewrite calcDistAndAzimuth_meridian. fold theta.
  rewrite acos_cos by lra.
  rewrite atan2_0_pos by (apply sin_gt_0; lra).
  rewrite RAD2DEG_0, double_to_uint32_IZR by lia. reflexivity.
Qed.

(** Due south of home by an arc [- theta]: azimuth 180. *)
Lemma meridian_south (srcLat dstLat lon : Z) :
  let theta :=
    DEG2RAD (IZR (float_of_int32 dstLat) / 10000000)
    - DEG2RAD (IZR (float_of_int32 srcLat) / 10000000) in
  - PI < theta < 0 ->
  calcDistAndAzimuth srcLat lon dstLat lon
  = (double_to_uint32 (- theta * 6371000), 180%Z).
Proof.
  intros theta Ht. rewrite calcDistAndAzimuth_meridian. fold theta.
  rewrite (cos_sym theta). rewrite acos_cos by lra.
  rewrite atan2_0_neg by (apply sin_lt_0_var; lra).
  rewrite RAD2DEG_PI, double_to_uint32_IZR by lia. reflexivity.
Qed.

Lemma double_to_uint32_between (x : R) (a b : Z) :
  (0 <= a)%Z -> (b <= 2 ^ 32)%Z -> IZR a <= x -> x < IZR b ->
  (a <= double_to_uint32 x < b)%Z.
Proof.
  intros Ha Hb H1 H2. unfold double_to_uint32.
  assert (0 <= x) by (apply IZR_le in Ha; lra).
  pose proof (Rtrunc_between x a b H H1 H2).
  rewrite uint32_small; lia.
Qed.

End GeodesyFacts.

Section FlyoverGeodesy.
Local Open Scope R_scope.

Lemma PI_tight : 3.1415 < PI < 3.1421.
Proof.
  pose proof (PI_2_3_7_ineq 1) as H.
  unfold sum_f_R0, tg_alt, PI_2_3_7_tg, Ratan_seq in H.
  simpl in H. lra.
Qed.

(** 22 m north of home: distance 22, azimuth 0. *)
Lemma fix_north_target :
  calcDistAndAzimuth 10000000 10000000 10002000 10000000 = (22%Z, 0%Z).
Proof.
  pose proof PI_tight.
  rewrite meridian_north
    by (rewrite !float_of_int32_exact by lia; unfold DEG2RAD; lra).
  rewrite !float_of_int32_exact by lia.
  f_equal.
  enough (22 <= double_to_uint32
            ((DEG2RAD (IZR 10002000 / 10000000)
              - DEG2RAD (IZR 10000000 / 10000000)) * 6371000) < 23)%Z by lia.
  apply double_to_uint32_between; try lia; unfold DEG2RAD; lra.
Qed.

(** 22 m south of home: distance 22, azimuth 180. *)
Lemma fix_south_target :
  calcDistAndAzimuth 10000000 10000000 9998000 10000000 = (22%Z, 180%Z).
Proof.
  pose proof PI_tight.
  rewrite meridian_south
    by (rewrite !float_of_int32_exact by lia; unfold DEG2RAD; lra).
  rewrite !float_of_int32_exact by lia.
  f_equal.
  enough (22 <= double_to_uint32
            (- (DEG2RAD (IZR 9998000 / 10000000)
                - DEG2RAD (IZR 10000000 / 10000000)) * 6371000) < 23)%Z by lia.
  apply double_to_uint32_between; try lia; unfold DEG2RAD; lra.
Qed.

End FlyoverGeodesy.

(** ** The fly-over, step by step *)

Arguments fixDistance : simpl never.
Arguments fixAzimuth : simpl never.
Arguments fixElevation : simpl never.

Ltac geodesy_fields :=
  cbv zeta;
  cbn [_gpsLast _home fixPosition lat lon altitude home_lat home_lon home_alt];
  unfold fixElevation, fixDistance, fixAzimuth;
  cbn [_gpsLast _home fixPosition lat lon altitude home_lat home_lon home_alt].

Lemma flyover_home :
  Loop isHomeSet_nonzero scenario_config 10000
       (SendGpsTelemetry fix_home (Init scenario_config AatModule_new))
  = Some (mkAatModule
            (mkGpsLast 10000000 10000000 0 0 100 10000 8 false)
            (mkHome 10000000 10000000 100)
            0 10000 0 0 0 0 (mkServoPos 150000 137500)).
Proof.
  change (SendGpsTelemetry fix_home (Init scenario_config AatModule_new))
    with (mkAatModule (mkGpsLast 10000000 10000000 0 0 100 0 8 true)
            (mkHome 0 0 0) 0 0 0 0 0 0 (mkServoPos 150000 150000)).
  unfold Loop.
  rewrite processGps_latch; [ | reflexivity | reflexivity | cbn; lia ].
  geodesy_fields.
  rewrite calcDistAndAzimuth_same. cbn [fst snd].
  change (sub32 100 100) with 0.
  rewrite calcElevation_level by lia.
  vm_compute. reflexivity.
Qed.

Lemma flyover_south :
  Loop isHomeSet_nonzero scenario_config 50000
       (SendGpsTelemetry fix_south
          (mkAatModule
            (mkGpsLast 10000000 10000000 0 0 100 10000 8 false)
            (mkHome 10000000 10000000 100)
            0 10000 0 0 0 0 (mkServoPos 150000 137500)))
  = Some (mkAatModule
            (mkGpsLast 9998000 10000000 0 0 100 50000 8 false)
            (mkHome 10000000 10000000 100)
            1000000 50000 22 180 0 (-222) (mkServoPos 137500 128125)).
Proof.
  match goal with |- context [SendGpsTelemetry ?p ?s] =>
    let v := eval vm_compute in (SendGpsTelemetry p s) in
    change (SendGpsTelemetry p s) with v
  end.
  unfold Loop.
  rewrite processGps_track; [ | reflexivity | reflexivity ].
  geodesy_fields.
  rewrite fix_south_target. cbn [fst snd].
  change (sub32 100 100) with 0.
  rewrite calcElevation_level by lia.
  vm_compute. reflexivity.
Qed.

Lemma flyover_north :
  Loop isHomeSet_nonzero scenario_config 51900
       (SendGpsTelemetry fix_north
          (mkAatModule
            (mkGpsLast 9998000 10000000 0 0 100 50000 8 false)
            (mkHome 10000000 10000000 100)
            1000000 50000 22 180 0 (-222) (mkServoPos 137500 128125)))
  = Some (mkAatModule
            (mkGpsLast 10002000 10000000 0 0 100 51900 8 false)
            (mkHome 10000000 10000000 100)
            797500 51900 22 0 0 (-10) (mkServoPos 140625 121094)).
Proof.
  match goal with |- context [SendGpsTelemetry ?p ?s] =>
    let v := eval vm_compute in (SendGpsTelemetry p s) in
    change (SendGpsTelemetry p s) with v
  end.
  unfold Loop.
  rewrite processGps_track; [ | reflexivity | reflexivity ].
  geodesy_fields.
  rewrite fix_north_target. cbn [fst snd].
  change (sub32 100 100) with 0.
  rewrite calcElevation_level by lia.
  vm_compute. reflexivity.
Qed.

Lemma flyover_run :
  run isHomeSet_nonzero scenario_config flyover
      (Init scenario_config AatModule_new)
  = Some (mkAatModule
            (mkGpsLast 10002000 10000000 0 0 100 51900 8 false)
            (mkHome 10000000 10000000 100)
            797500 51900 22 0 0 (-10) (mkServoPos 140625 121094)).
Proof.
  unfold flyover. cbn [run].
  rewrite flyover_home. cbn [bind].
  rewrite flyover_south. cbn [bind].
  rewrite flyover_north. reflexivity.
Qed.

Lemma stale_run :
  run isHomeSet_nonzero scenario_config stale_ticks
      (mkAatModule
            (mkGpsLast 10002000 10000000 0 0 100 51900 8 false)
            (mkHome 10000000 10000000 100)
            797500 51900 22 0 0 (-10) (mkServoPos 140625 121094))
  = Some (mkAatModule
            (mkGpsLast 10002000 10000000 0 0 100 51900 8 false)
            (mkHome 10000000 10000000 100)
            797500 57540 22 0 0 (-10) (mkServoPos 99164 102113)).
Proof. vm_compute. reflexivity. Qed.

(** ** Reachable states *)

Section Reachable.

Variable isHomeSet : Home -> bool.
Variable config : Config.

Lemma run_app (evs evs' : list Event) :
  forall s,
    run isHomeSet config (evs ++ evs') s
    = (s' <- run isHomeSet config evs s ;; run isHomeSet config evs' s').
Proof.
  induction evs as [|ev evs IH]; intros s; [reflexivity|].
  destruct ev as [p|now]; cbn [run app].
  - apply IH.
  - destruct (Loop isHomeSet config now s) as [s1|]; cbn [bind];
      [apply IH | reflexivity].
Qed.

Lemma run_reachable (evs : list Event) :
  forall s s',
    reachable isHomeSet config s ->
    run isHomeSet config evs s = Some s' ->
    reachable isHomeSet config s'.
Proof.
  induction evs as [|ev evs IH]; intros s s' Hr E.
  - inversion E. subst. exact Hr.
  - destruct ev as [p|now]; cbn [run] in E.
    + apply (IH _ _ (reach_step _ _ _ _ Hr (step_gps _ _ p s)) E).
    + destruct (Loop isHomeSet config now s) as [s1|] eqn:E1;
        [|discriminate]. cbn [bind] in E.
      apply (IH _ _ (reach_step _ _ _ _ Hr (step_loop _ _ now s s1 E1)) E).
Qed.

Lemma processGps_tracking_ok (now : Z) (s s' : AatModule) :
  tracking_ok s ->
  processGps isHomeSet config now s = Some s' ->
  tracking_ok s'.
Proof.
  intros Hok E.
  assert (Hd : forall h g, 0 <= fixDistance h g < 2 ^ 32)
    by (intros; apply calcDistAndAzimuth_dist_range).
  assert (Ha : forall h g, 0 <= uint16 (fixAzimuth h g) < 360).
  { intros h g.
    pose proof (calcDistAndAzimuth_azim_range (home_lat h) (home_lon h)
                  (lat g) (lon g)) as H.
    fold (fixAzimuth h g) in H. rewrite uint16_small; lia. }
  assert (He : forall h g, 0 <= fixElevation h g <= 90).
  { intros h g. unfold fixElevation.
    match goal with |- context [constrain ?a 0 90] =>
      pose proof (constrain_range a 0 90 ltac:(lia))
    end.
    rewrite uint8_small; lia. }
  destruct (updated (_gpsLast s)) eqn:Hu.
  - destruct (isHomeSet (_home s)) eqn:Hh.
    + rewrite processGps_track in E by assumption.
      inversion E. subst s'. clear E.
      unfold tracking_ok.
      cbn [_targetAzim _targetElev _targetDistance _gpsAvgUpdateInterval
           _azimMsPerDegree set_target set_azimMsPerDegree
           set_gpsAvgUpdateInterval].
      repeat split; try apply Hd; try apply Ha; try apply He;
        try apply updateGpsInterval_le_max.
      * destruct (_ =? 0); [lia | apply int32_range].
      * destruct (_ =? 0); [lia | apply int32_range].
    + destruct (Z_lt_ge_dec (satcnt (_gpsLast s))
                            (GetAatSatelliteHomeMin config)).
      * rewrite processGps_rejected in E by assumption.
        inversion E. subst s'. exact Hok.
      * rewrite processGps_latch in E by (try assumption; lia).
        inversion E. subst s'. clear E.
        destruct Hok as (_ & _ & _ & Havg & Hrate).
        unfold tracking_ok.
        cbn [_targetAzim _targetElev _targetDistance _gpsAvgUpdateInterval
             _azimMsPerDegree set_target set_home consumeFix set_gpsLast].
        repeat split; try apply Hd; try apply Ha; try apply He; lia.
  - rewrite processGps_not_updated in E by assumption.
    inversion E. subst s'. exact Hok.
Qed.

Lemma step_tracking_ok (s s' : AatModule) :
  tracking_ok s -> step isHomeSet config s s' -> tracking_ok s'.
Proof.
  intros Hok Hs. destruct Hs as [p s|now s s' E].
  - exact Hok.
  - unfold Loop in E.
    destruct (processGps isHomeSet config now s) as [s1|] eqn:E1;
      [|discriminate]. cbn [bind] in E.
    pose proof (processGps_tracking_ok _ _ _ Hok E1) as H1.
    destruct (isHomeSet (_home s1) && (DELAY_FIRST_UPDATE <? now)).
    + apply servoUpdate_frame in E.
      destruct E as (_ & _ & Ea & Ed & Ez & Ee & Er).
      unfold tracking_ok in *. rewrite Ea, Ed, Ez, Ee, Er. exact H1.
    + inversion E. subst. exact H1.
Qed.

(** In every reachable state the target vector and the estimates are
    within their ranges. *)
Lemma reachable_tracking_ok (s : AatModule) :
  reachable isHomeSet config s -> tracking_ok s.
Proof.
  induction 1 as [|s s' _ IH Hs].
  - unfold tracking_ok. cbn. lia.
  - exact (step_tracking_ok _ _ IH Hs).
Qed.

End Reachable.

Lemma scenario_config_ok : config_ok scenario_config.
Proof.
  unfold config_ok, scenario_config. cbn.
  split; [intros idx|]; lia.
Qed.

(** ** The claim on the interval filter *)

Section IntervalFilter.

Variable isHomeSet : Home -> bool.
Variable config : Config.

(** C6.  A record processed with home set replaces the average by
    [updateGpsInterval interval avg]; for an interval whose hundredfold
    fits an [int32_t] this is [avg + (interval * 100 - avg) / 4], cut at
    1,000,000; fed with 1000 ms again and again from 0 the average never
    decreases and stays below 100000; and whatever the interval and the
    average, the stored value is at most 1,000,000. *)
Theorem gps_interval_filter :
  (forall now s,
      updated (_gpsLast s) = true ->
      isHomeSet (_home s) = true ->
      exists s',
        processGps isHomeSet config now s = Some s'
        /\ _gpsAvgUpdateInterval s'
           = updateGpsInterval (processInterval now s)
                               (_gpsAvgUpdateInterval s))
  /\ (forall interval avg,
         0 <= interval -> interval * 100 < 2 ^ 31 -> 0 <= avg <= 1000000 ->
         updateGpsInterval interval avg
         = Z.min (avg + Z.quot (interval * 100 - avg) 4) 1000000)
  /\ (forall n,
         let avg := Nat.iter n (updateGpsInterval 1000) 0 in
         avg <= updateGpsInterval 1000 avg /\ updateGpsInterval 1000 avg < 100000)
  /\ (forall interval avg, updateGpsInterval interval avg <= 1000000).
Proof.
  split; [|split; [|split]].
  - intros now s Hu Hh. eexists. split.
    + apply processGps_track; assumption.
    + reflexivity.
  - apply updateGpsInterval_exact.
  - intros n avg.
    apply updateGpsInterval_1000_step. apply updateGpsInterval_1000_iter.
  - intros interval avg. apply updateGpsInterval_le_max.
Qed.

End IntervalFilter.

(** ** The claims on the servos *)

Section ServoClaims.

Variable config : Config.
Hypothesis Hcfg : config_ok config.

(** C5.  For each axis, with [range = 100 * (high - low)] and
    [delta = newPosition - currentPosition], the loop body of
    [servoUpdate] sets the position to [newPosition] when
    [|delta| * 100 / range > 80] and advances it by
    [delta / (smoothingFactor + 1)] otherwise, and a [servoUpdate] that is
    due does so on both axes; with bounds 1000 and 2000 and smoothing
    factor 3, a change of 90% of the range is taken at once and a change
    of 40% moves the position by a quarter of it. *)
Theorem servo_jump_or_smooth :
  (forall idx newPos cur,
      Z.abs (newPos - cur) * 100 < 2 ^ 31 ->
      0 <= cur < 2 ^ 30 -> - 2 ^ 30 <= newPos < 2 ^ 30 ->
      servoStep config idx newPos cur
      = Some (spec_servoStep (GetAatServoLow config idx)
                (GetAatServoHigh config idx) (GetAatServoSmooth config)
                newPos cur))
  /\ (forall now s,
         tracking_ok s ->
         (forall idx, servo_in_bounds config (_servoPos s) idx) ->
         20 <= usub32 now (_lastServoUpdateMs s) ->
         exists proj nA nE s',
           calcProjectedAzim config now s = Some proj
           /\ newServoPos config proj s IDX_AZIM = Some nA
           /\ newServoPos config proj s IDX_ELEV = Some nE
           /\ servoUpdate config now s = Some s'
           /\ pos_azim (_servoPos s')
              = spec_servoStep (GetAatServoLow config IDX_AZIM)
                  (GetAatServoHigh config IDX_AZIM)
                  (GetAatServoSmooth config) nA (pos_azim (_servoPos s))
           /\ pos_elev (_servoPos s')
              = spec_servoStep (GetAatServoLow config IDX_ELEV)
                  (GetAatServoHigh config IDX_ELEV)
                  (GetAatServoSmooth config) nE (pos_elev (_servoPos s)))
  /\ (forall idx cur,
         0 <= cur < 2 ^ 30 - 90000 ->
         servoStep scenario_config idx (cur + 90000) cur = Some (cur + 90000)
         /\ servoStep scenario_config idx (cur + 40000) cur
            = Some (cur + Z.quot 40000 4)).
Proof.
  split; [|split].
  - intros idx newPos cur. apply servoStep_exact. exact Hcfg.
  - intros now s Hok Hb Hi.
    destruct (servoUpdate_exact config Hcfg now s Hok Hb Hi)
      as (proj & nA & nE & Ep & _ & EA & _ & EE & _ & E).
    exists proj, nA, nE. eexists.
    split; [exact Ep|]. split; [exact EA|]. split; [exact EE|].
    split; [exact E|]. split; reflexivity.
  - intros idx cur Hc. split.
    + rewrite (servoStep_exact scenario_config scenario_config_ok) by lia.
      unfold spec_servoStep.
      replace (cur + 90000 - cur) with 90000 by lia. reflexivity.
    + rewrite (servoStep_exact scenario_config scenario_config_ok) by lia.
      unfold spec_servoStep.
      replace (cur + 40000 - cur) with 40000 by lia. reflexivity.
Qed.

End ServoClaims.

(** ** The fly-over against the claims on projection and servo bounds *)

(** C1, at a state the module reaches.  After the fly-over projection is
    enabled, the average interval is 797500, the rate is -10 ms per degree
    and the target is 22 m away; 3.7 s after the last record
    [calcProjectedAzim] returns -10 and 5.5 s after it -190. *)
Theorem calcProjectedAzim_negative_after_flyover :
  exists s,
    run isHomeSet_nonzero scenario_config flyover
        (Init scenario_config AatModule_new) = Some s
    /\ reachable isHomeSet_nonzero scenario_config s
    /\ GetAatProject scenario_config = true
    /\ _gpsAvgUpdateInterval s = 797500
    /\ _azimMsPerDegree s = -10
    /\ _targetDistance s = 22
    /\ _targetAzim s = 0
    /\ calcProjectedAzim scenario_config 55600 s = Some (-10)
    /\ calcProjectedAzim scenario_config 57400 s = Some (-190).
Proof.
  eexists. split; [apply flyover_run|]. split.
  - eapply run_reachable; [apply reach_init | apply flyover_run].
  - repeat split; vm_compute; reflexivity.
Qed.

(** C2, at a state the module reaches.  Each axis is configured between
    1000 and 2000 microseconds; after the fly-over and eight ticks of the
    control loop with no new record the azimuth axis stands at 99164,
    below its low bound times 100. *)
Theorem servo_below_low_after_flyover :
  exists s,
    run isHomeSet_nonzero scenario_config (flyover ++ stale_ticks)
        (Init scenario_config AatModule_new) = Some s
    /\ reachable isHomeSet_nonzero scenario_config s
    /\ config_ok scenario_config
    /\ servo_in_bounds scenario_config
         (_servoPos (Init scenario_config AatModule_new)) IDX_AZIM
    /\ servo_get (_servoPos s) IDX_AZIM = 99164
    /\ GetAatServoLow scenario_config IDX_AZIM * 100 = 100000
    /\ ~ servo_in_bounds scenario_config (_servoPos s) IDX_AZIM.
Proof.
  assert (E : run isHomeSet_nonzero scenario_config (flyover ++ stale_ticks)
                  (Init scenario_config AatModule_new)
              = Some (mkAatModule
                        (mkGpsLast 10002000 10000000 0 0 100 51900 8 false)
                        (mkHome 10000000 10000000 100)
                        797500 57540 22 0 0 (-10) (mkServoPos 99164 102113))).
  { rewrite run_app, flyover_run. cbn [bind]. apply stale_run. }
  eexists. split; [exact E|]. split.
  - eapply run_reachable; [apply reach_init | exact E].
  - split; [exact scenario_config_ok|].
    split; [apply Init_in_bounds; exact scenario_config_ok|].
    split; [reflexivity|]. split; [reflexivity|].
    unfold servo_in_bounds. cbn. lia.
Qed.

(** In a reachable state [calcProjectedAzim] returns, its result is less
    than a full turn from 0, and it is an azimuth in [0, 360) whenever the
    stored rate is not negative. *)
Lemma calcProjectedAzim_reachable (isHomeSet : Home -> bool)
    (config : Config) (now : Z) (s : AatModule) :
  reachable isHomeSet config s ->
  exists p,
    calcProjectedAzim config now s = Some p
    /\ - 360 < p < 360
    /\ (0 <= _azimMsPerDegree s -> 0 <= p).
Proof.
  intros Hr. pose proof (reachable_tracking_ok _ _ _ Hr) as Hok.
  destruct (calcProjectedAzim_total config now s Hok) as (p & Ep & Hp).
  exists p. split; [exact Ep|]. split; [exact Hp|].
  intros Hpos.
  destruct (calcProjectedAzim_positive_rate config now s Hok Hpos)
    as (p' & Ep' & Hp').
  rewrite Ep in Ep'. inversion Ep'. lia.
Qed.

(** ** The staleness percentage against exact arithmetic *)

(** C9 as stated fails.  With an average of 100000 and the last record at
    time 0, at [now = 429497] the product wraps and the code returns 0
    where the exact quotient gives 100; and once the millisecond counter
    has wrapped (last record at 2^32 - 100, [now = 100]) the code returns
    20, from the 200 ms that have passed, where the exact difference is
    negative and gives 0. *)
Lemma calcGpsIntervalPct_not_exact :
  calcGpsIntervalPct 429497
    (mkAatModule (mkGpsLast 0 0 0 0 0 0 0 false) (mkHome 0 0 0)
                 100000 0 0 0 0 0 (mkServoPos 0 0)) = Some 0
  /\ constrain ((429497 - 0) * 10000 / 100000) 0 100 = 100
  /\ calcGpsIntervalPct 100
       (mkAatModule (mkGpsLast 0 0 0 0 0 4294967196 0 false) (mkHome 0 0 0)
                    100000 0 0 0 0 0 (mkServoPos 0 0)) = Some 20
  /\ constrain ((100 - 4294967196) * 10000 / 100000) 0 100 = 0.
Proof. repeat split; vm_compute; reflexivity. Qed.

(** ** The theorems at concrete inputs *)

(** Home latching on the first record of the fly-over, after which home
    counts as set; on a record with three satellites; and on a record
    with eight satellites at the zero position, after which home still
    counts as unset. *)
Lemma home_latched_once_witness :
  (exists s',
      processGps isHomeSet_nonzero scenario_config 10000
        (SendGpsTelemetry fix_home (Init scenario_config AatModule_new))
      = Some s'
      /\ _home s' = mkHome 10000000 10000000 100
      /\ isHomeSet_nonzero (_home s') = true)
  /\ (exists s',
         Loop isHomeSet_nonzero scenario_config 7000
           (SendGpsTelemetry (mkGpsPacket 10000000 10000000 0 0 1100 3)
              (Init scenario_config AatModule_new))
         = Some s'
         /\ _home s' = mkHome 0 0 0
         /\ _servoPos s' = mkServoPos 150000 150000)
  /\ (exists s',
         processGps isHomeSet_nonzero scenario_config 10000
           (SendGpsTelemetry (mkGpsPacket 0 0 0 0 1000 8)
              (Init scenario_config AatModule_new))
         = Some s'
         /\ _home s' = mkHome 0 0 0
         /\ isHomeSet_nonzero (_home s') = false).
Proof.
  pose proof (home_latched_once isHomeSet_nonzero scenario_config)
    as (Hlatch & Hreject & _ & Hzero).
  split; [|split].
  - destruct (Hlatch 10000
                (SendGpsTelemetry fix_home (Init scenario_config AatModule_new)))
      as (s' & E & Hh & _ & _ & Hset & _);
      [reflexivity | reflexivity | cbn; lia |].
    exists s'. split; [exact E|]. split; [exact Hh|].
    rewrite Hset. reflexivity.
  - destruct (Hreject 7000
                (SendGpsTelemetry (mkGpsPacket 10000000 10000000 0 0 1100 3)
                   (Init scenario_config AatModule_new)))
      as (s' & _ & E & Hh & _ & _ & _ & _ & _ & Hp);
      [reflexivity | reflexivity | cbn; lia |].
    exists s'. split; [exact E|]. split; [exact Hh | exact Hp].
  - destruct (Hzero 10000
                (SendGpsTelemetry (mkGpsPacket 0 0 0 0 1000 8)
                   (Init scenario_config AatModule_new)))
      as (s' & E & Hh & Hu);
      [reflexivity | reflexivity | reflexivity | cbn; lia | reflexivity |].
    exists s'. split; [exact E|]. split; [exact Hh | exact Hu].
Defined.

(** A record with eight satellites at latitude 0, longitude 0 and altitude
    0 is processed while home is unset and six satellites are asked for:
    its position is put into home, yet home still counts as unset, and the
    next record with eight satellites, 40 s later, replaces it. *)
Lemma home_relatched_after_zero_fix :
  exists s1 s2,
    run isHomeSet_nonzero scenario_config
        [Gps (mkGpsPacket 0 0 0 0 1000 8); Tick 10000]
        (Init scenario_config AatModule_new) = Some s1
    /\ GetAatSatelliteHomeMin scenario_config <= 8
    /\ _home s1 = mkHome 0 0 0
    /\ isHomeSet_nonzero (_home s1) = false
    /\ run isHomeSet_nonzero scenario_config
           [Gps fix_home; Tick 50000] s1 = Some s2
    /\ _home s2 = mkHome 10000000 10000000 100
    /\ _home s2 <> _home s1.
Proof.
  assert (E1 :
    Loop isHomeSet_nonzero scenario_config 10000
      (SendGpsTelemetry (mkGpsPacket 0 0 0 0 1000 8)
         (Init scenario_config AatModule_new))
    = Some (mkAatModule (mkGpsLast 0 0 0 0 0 10000 8 false) (mkHome 0 0 0)
              0 0 0 0 0 0 (mkServoPos 150000 150000))).
  { change (SendGpsTelemetry (mkGpsPacket 0 0 0 0 1000 8)
              (Init scenario_config AatModule_new))
      with (mkAatModule (mkGpsLast 0 0 0 0 0 0 8 true)
              (mkHome 0 0 0) 0 0 0 0 0 0 (mkServoPos 150000 150000)).
    unfold Loop.
    rewrite processGps_latch; [ | reflexivity | reflexivity | cbn; lia ].
    geodesy_fields.
    rewrite calcDistAndAzimuth_same. cbn [fst snd].
    change (sub32 0 0) with 0.
    rewrite calcElevation_level by lia.
    vm_compute. reflexivity. }
  assert (E2 :
    Loop isHomeSet_nonzero scenario_config 50000
      (SendGpsTelemetry fix_home
         (mkAatModule (mkGpsLast 0 0 0 0 0 10000 8 false) (mkHome 0 0 0)
              0 0 0 0 0 0 (mkServoPos 150000 150000)))
    = Some (mkAatModule
              (mkGpsLast 10000000 10000000 0 0 100 50000 8 false)
              (mkHome 10000000 10000000 100)
              0 50000 0 0 0 0 (mkServoPos 150000 137500))).
  { match goal with |- context [SendGpsTelemetry ?p ?s] =>
      let v := eval vm_compute in (SendGpsTelemetry p s) in
      change (SendGpsTelemetry p s) with v
    end.
    unfold Loop.
    rewrite processGps_latch; [ | reflexivity | reflexivity | cbn; lia ].
    geodesy_fields.
    rewrite calcDistAndAzimuth_same. cbn [fst snd].
    change (sub32 100 100) with 0.
    rewrite calcElevation_level by lia.
    vm_compute. reflexivity. }
  eexists. eexists.
  split; [cbn [run]; rewrite E1; reflexivity|].
  split; [cbn; lia|].
  split; [reflexivity|].
  split; [reflexivity|].
  split; [cbn [run]; rewrite E2; reflexivity|].
  split; [reflexivity|].
  cbn. discriminate.
Qed.

(** A record with three satellites, processed at 7 s with home unset. *)
Lemma rejected_fix_is_stamped_witness :
  processGps isHomeSet_nonzero scenario_config 7000
    (SendGpsTelemetry (mkGpsPacket 10000000 10000000 0 0 1100 3)
       (Init scenario_config AatModule_new))
  = Some (consumeFix 7000
            (SendGpsTelemetry (mkGpsPacket 10000000 10000000 0 0 1100 3)
               (Init scenario_config AatModule_new))).
Proof.
  refine (proj1 (rejected_fix_is_stamped isHomeSet_nonzero scenario_config
                   7000 _ _ _ _));
    [reflexivity | reflexivity | cbn; lia].
Defined.

(** The second record of the fly-over, processed 40 s after home was
    set. *)
Lemma rate_guards_zero_delta_witness :
  exists s',
    processGps isHomeSet_nonzero scenario_config 50000
      (SendGpsTelemetry fix_south
         (mkAatModule
            (mkGpsLast 10000000 10000000 0 0 100 10000 8 false)
            (mkHome 10000000 10000000 100)
            0 10000 0 0 0 0 (mkServoPos 150000 137500)))
    = Some s'.
Proof.
  destruct (rate_guards_zero_delta isHomeSet_nonzero scenario_config 50000
              (SendGpsTelemetry fix_south
                 (mkAatModule
                    (mkGpsLast 10000000 10000000 0 0 100 10000 8 false)
                    (mkHome 10000000 10000000 100)
                    0 10000 0 0 0 0 (mkServoPos 150000 137500))))
    as (s' & E & _); [reflexivity | reflexivity |].
  exists s'. exact E.
Defined.

(** 200 ms after a record stamped just before the millisecond counter
    wrapped, with an average interval of one second. *)
Lemma calcGpsIntervalPct_wrap_safe_witness :
  calcGpsIntervalPct 100
    (mkAatModule (mkGpsLast 0 0 0 0 0 4294967196 0 false) (mkHome 0 0 0)
                 100000 0 0 0 0 0 (mkServoPos 0 0)) = Some 20.
Proof.
  refine (proj1 (proj2 (calcGpsIntervalPct_wrap_safe 100
                          (mkAatModule
                             (mkGpsLast 0 0 0 0 0 4294967196 0 false)
                             (mkHome 0 0 0)
                             100000 0 0 0 0 0 (mkServoPos 0 0)) _)) _ _);
    [cbn; lia | cbn; lia | vm_compute; reflexivity].
Defined.

(** Right after [Init] there is no rate estimate. *)
Lemma calcProjectedAzim_returns_stored_witness :
  calcProjectedAzim scenario_config 123456 (Init scenario_config AatModule_new)
  = Some 0.
Proof.
  refine (proj1 (calcProjectedAzim_returns_stored scenario_config
                   (Init scenario_config AatModule_new) _) 123456).
  right. right. left. reflexivity.
Defined.

(** The first update of the average with an interval of one second. *)
Lemma gps_interval_filter_witness : updateGpsInterval 1000 0 = 25000.
Proof.
  refine (proj1 (proj2 (gps_interval_filter isHomeSet_nonzero scenario_config))
            1000 0 _ _ _); lia.
Defined.

(** The elevation axis at its low end, steered to 90% and to 40% of its
    range. *)
Lemma servo_jump_or_smooth_witness :
  servoStep scenario_config IDX_ELEV 190000 100000 = Some 190000
  /\ servoStep scenario_config IDX_ELEV 140000 100000 = Some 110000.
Proof.
  refine (proj2 (proj2 (servo_jump_or_smooth scenario_config _))
            IDX_ELEV 100000 _).
  - unfold config_ok, scenario_config. cbn. split; [intros idx|]; lia.
  - lia.
Defined.

(** * Further properties of the tracking core *)

(** ** The hand-over of a record *)

Section HandOver.

Variable isHomeSet : Home -> bool.
Variable config : Config.

Lemma processGps_clears_updated (now : Z) (s s' : AatModule) :
  processGps isHomeSet config now s = Some s' ->
  updated (_gpsLast s') = false.
Proof.
  intros E.
  destruct (updated (_gpsLast s)) eqn:Hu.
  - destruct (isHomeSet (_home s)) eqn:Hh.
    + rewrite processGps_track in E by assumption.
      inversion E. reflexivity.
    + destruct (Z_lt_ge_dec (satcnt (_gpsLast s))
                            (GetAatSatelliteHomeMin config)).
      * rewrite processGps_rejected in E by assumption.
        inversion E. reflexivity.
      * rewrite processGps_latch in E by (try assumption; lia).
        inversion E. reflexivity.
  - rewrite processGps_not_updated in E by assumption.
    inversion E. subst. exact Hu.
Qed.

(** X2.  A record is processed once: whatever [processGps] did, the record
    is no longer fresh afterwards, and a further [processGps], at any
    time, changes nothing until [SendGpsTelemetry] stores a new record. *)
Theorem record_processed_once (now now' : Z) (s s' : AatModule) :
  processGps isHomeSet config now s = Some s' ->
  updated (_gpsLast s') = false
  /\ processGps isHomeSet config now' s' = Some s'
  /\ (forall p, updated (_gpsLast (SendGpsTelemetry p s')) = true).
Proof.
  intros E. pose proof (processGps_clears_updated _ _ _ E) as Hu.
  split; [exact Hu|]. split.
  - apply processGps_not_updated. exact Hu.
  - intros p. reflexivity.
Qed.

(** [processGps] leaves the servo side and the position of the record
    alone. *)
Lemma processGps_frame (now : Z) (s s' : AatModule) :
  processGps isHomeSet config now s = Some s' ->
  _servoPos s' = _servoPos s
  /\ _lastServoUpdateMs s' = _lastServoUpdateMs s
  /\ lat (_gpsLast s') = lat (_gpsLast s)
  /\ lon (_gpsLast s') = lon (_gpsLast s)
  /\ altitude (_gpsLast s') = altitude (_gpsLast s)
  /\ satcnt (_gpsLast s') = satcnt (_gpsLast s).
Proof.
  intros E.
  destruct (updated (_gpsLast s)) eqn:Hu.
  - destruct (isHomeSet (_home s)) eqn:Hh.
    + rewrite processGps_track in E by assumption.
      inversion E. repeat split.
    + destruct (Z_lt_ge_dec (satcnt (_gpsLast s))
                            (GetAatSatelliteHomeMin config)).
      * rewrite processGps_rejected in E by assumption.
        inversion E. repeat split.
      * rewrite processGps_latch in E by (try assumption; lia).
        inversion E. repeat split.
  - rewrite processGps_not_updated in E by assumption.
    inversion E. subst. repeat split.
Qed.

(** Home, once unset at the end of a step, was unset before it. *)
Lemma Loop_unset_before (now : Z) (s s' : AatModule) :
  Loop isHomeSet config now s = Some s' ->
  isHomeSet (_home s') = false ->
  isHomeSet (_home s) = false
  /\ _servoPos s' = _servoPos s
  /\ _lastServoUpdateMs s' = _lastServoUpdateMs s.
Proof.
  intros E Hu.
  destruct (isHomeSet (_home s)) eqn:Hh.
  - rewrite (Loop_keeps_home _ _ _ _ _ Hh E) in Hu. congruence.
  - split; [reflexivity|].
    unfold Loop in E.
    destruct (processGps isHomeSet config now s) as [s1|] eqn:E1;
      [|discriminate]. cbn [bind] in E.
    destruct (isHomeSet (_home s1)) eqn:H1; cbn [andb] in E.
    + destruct (DELAY_FIRST_UPDATE <? now).
      * apply servoUpdate_frame in E. destruct E as (_ & Eh & _).
        rewrite Eh, H1 in Hu. discriminate.
      * inversion E. subst s'. congruence.
    + inversion E. subst s'.
      apply processGps_frame in E1. destruct E1 as (Ep & El & _).
      split; assumption.
Qed.

(** X12.  Until home is set the servos rest: however many records arrive
    and however often the control loop runs, as long as home is unset at
    the end both axes still stand where [Init] put them and
    [servoUpdate] has never run. *)
Theorem servos_rest_until_home (evs : list Event) (s' : AatModule) :
  run isHomeSet config evs (Init config AatModule_new) = Some s' ->
  isHomeSet (_home s') = false ->
  _servoPos s' = _servoPos (Init config AatModule_new)
  /\ _lastServoUpdateMs s' = 0.
Proof.
  change 0 with (_lastServoUpdateMs (Init config AatModule_new)).
  generalize (Init config AatModule_new) as s.
  induction evs as [|ev evs IH]; intros s E Hu.
  - inversion E. split; reflexivity.
  - destruct ev as [p|now]; cbn [run] in E.
    + apply (IH _ E Hu).
    + destruct (Loop isHomeSet config now s) as [s1|] eqn:E1;
        [|discriminate]. cbn [bind] in E.
      destruct (IH _ E Hu) as (Hp & Hl).
      assert (H1 : isHomeSet (_home s1) = false).
      { destruct (isHomeSet (_home s1)) eqn:H1; [|reflexivity].
        rewrite <- (run_keeps_home _ _ _ _ _ H1 E) in H1. congruence. }
      destruct (Loop_unset_before _ _ _ E1 H1) as (_ & Hp1 & Hl1).
      split; congruence.
Qed.

End HandOver.

(** X3.  [SendGpsTelemetry] keeps one record: a second record replaces the
    first one whole, the time of the last processing and everything
    outside [_gpsLast] are kept, the altitude is the 16-bit field less
    1000 m, and latitude and longitude are the 32-bit fields read as
    signed. *)
Theorem SendGpsTelemetry_single_slot (p p' : GpsPacket) (s : AatModule) :
  SendGpsTelemetry p' (SendGpsTelemetry p s) = SendGpsTelemetry p' s
  /\ lastUpdateMs (_gpsLast (SendGpsTelemetry p s)) = lastUpdateMs (_gpsLast s)
  /\ set_gpsLast (_gpsLast s) (SendGpsTelemetry p s) = set_gpsLast (_gpsLast s) s
  /\ (0 <= p_altitude p < 2 ^ 16 ->
      altitude (_gpsLast (SendGpsTelemetry p s)) = p_altitude p - 1000)
  /\ (0 <= p_lat p < 2 ^ 31 ->
      lat (_gpsLast (SendGpsTelemetry p s)) = p_lat p)
  /\ (2 ^ 31 <= p_lat p < 2 ^ 32 ->
      lat (_gpsLast (SendGpsTelemetry p s)) = p_lat p - 2 ^ 32)
  /\ (0 <= p_lon p < 2 ^ 31 ->
      lon (_gpsLast (SendGpsTelemetry p s)) = p_lon p)
  /\ (2 ^ 31 <= p_lon p < 2 ^ 32 ->
      lon (_gpsLast (SendGpsTelemetry p s)) = p_lon p - 2 ^ 32).
Proof.
  split; [reflexivity|]. split; [reflexivity|]. split; [reflexivity|].
  cbn [SendGpsTelemetry set_gpsLast _gpsLast altitude lat lon].
  unfold sub32.
  split; [intros H; apply int32_small; lia|].
  split; [intros H; apply int32_small; lia|].
  split; [intros H; unfold int32; zdiv|].
  split; [intros H; apply int32_small; lia|].
  intros H; unfold int32; zdiv.
Qed.

(** ** The servos in every reachable state *)


Section ServoReach.

Variable config : Config.
Hypothesis Hcfg : config_ok config.

Lemma servoStep_exact_signed (idx : ServoIndex) (newPos cur : Z) :
  Z.abs (newPos - cur) * 100 < 2 ^ 31 ->
  - 2 ^ 30 <= cur < 2 ^ 30 -> - 2 ^ 30 <= newPos < 2 ^ 30 ->
  servoStep config idx newPos cur
  = Some (spec_servoStep (GetAatServoLow config idx)
            (GetAatServoHigh config idx) (GetAatServoSmooth config)
            newPos cur).
Proof.
  intros Hd Hc Hn.
  destruct Hcfg as (Hb & Hs & _). specialize (Hb idx).
  unfold servoStep, spec_servoStep.
  unfold sub32, mul32, add32.
  rewrite (int32_small (GetAatServoHigh config idx - _)) by lia.
  rewrite (int32_small (100 * _)) by lia.
  rewrite (int32_small (newPos - cur)) by lia.
  rewrite c_abs_small by lia.
  rewrite (int32_small (Z.abs _ * 100)) by lia.
  rewrite (int32_small (GetAatServoSmooth config + 1)) by lia.
  unfold c_div.
  destruct (100 * (GetAatServoHigh config idx - GetAatServoLow config idx)
            =? 0) eqn:E; [lia|]. cbn [bind].
  rewrite Z.quot_div_nonneg by lia.
  assert (Hq : 0 <= Z.abs (newPos - cur) * 100
                    / (100 * (GetAatServoHigh config idx
                              - GetAatServoLow config idx))
               <= Z.abs (newPos - cur) * 100).
  { split; [apply Z.div_pos; lia|].
    apply Z.div_le_upper_bound; nia. }
  rewrite (int32_small (_ / _)) by lia.
  destruct (80 <? _); [reflexivity|].
  destruct (GetAatServoSmooth config + 1 =? 0) eqn:E2; [lia|]. cbn [bind].
  pose proof (quot_abs_le (newPos - cur) (GetAatServoSmooth config + 1)
                ltac:(lia)) as Hk.
  rewrite (int32_small (Z.quot _ _)) by lia.
  rewrite int32_small by lia. reflexivity.
Qed.

Lemma newServoPos_azim_floor (proj : Z) (s : AatModule) :
  - 360 < proj < 360 ->
  exists n,
    newServoPos config proj s IDX_AZIM = Some n
    /\ servo_azim_floor config <= n <= GetAatServoHigh config IDX_AZIM * 100
    /\ (- 180 <= proj -> GetAatServoLow config IDX_AZIM * 100 <= n).
Proof.
  intros Hp.
  destruct (newServoPos_azim config Hcfg proj s Hp) as (n & E & En & Hn & Hl).
  exists n. split; [exact E|]. split; [|exact Hl].
  split; [|lia].
  destruct Hcfg as (Hb & _). specialize (Hb IDX_AZIM).
  unfold servo_azim_floor. rewrite En.
  set (d := GetAatServoHigh config IDX_AZIM - GetAatServoLow config IDX_AZIM)
    in *.
  set (t := Z.rem (proj + 180) 360) in *.
  assert (Ht : - 179 <= t) by (unfold t; zdiv).
  assert (Hx : - 179 * d <= t * d) by nia.
  generalize dependent (t * d). intros x _ Hx. zdiv.
Qed.

Lemma servoUpdate_within_reach (now : Z) (s : AatModule) :
  tracking_ok s ->
  servo_within_reach config (_servoPos s) ->
  exists s',
    servoUpdate config now s = Some s'
    /\ servo_within_reach config (_servoPos s')
    /\ (forall proj,
           calcProjectedAzim config now s = Some proj -> - 180 <= proj ->
           servo_in_bounds config (_servoPos s) IDX_AZIM ->
           servo_in_bounds config (_servoPos s') IDX_AZIM).
Proof.
  intros Hok (HA & HE).
  destruct (Z_lt_ge_dec (usub32 now (_lastServoUpdateMs s)) 20) as [Hi|Hi].
  { exists s. split; [apply servoUpdate_early; exact Hi|].
    split; [split; assumption|]. intros; assumption. }
  destruct (calcProjectedAzim_total config now s Hok) as (proj & Ep & Hp).
  destruct (newServoPos_azim_floor proj s Hp) as (nA & EA & HnA & HnA').
  assert (He : 0 <= _targetElev s <= 90) by (destruct Hok as (_ & ? & _); lia).
  destruct (newServoPos_elev config Hcfg proj s He) as (nE & EE & _ & HnE).
  unfold servo_in_bounds in HE. cbn [servo_get] in HE.
  pose proof Hcfg as (Hc & _).
  pose proof (Hc IDX_AZIM) as HcA. pose proof (Hc IDX_ELEV) as HcE.
  unfold servo_azim_floor in *.
  eexists. split.
  - unfold servoUpdate.
    destruct (usub32 now (_lastServoUpdateMs s) <? 20) eqn:E; [lia|].
    change (calcProjectedAzim config now (set_lastServoUpdateMs now s))
      with (calcProjectedAzim config now s).
    rewrite Ep. cbn [bind].
    change (newServoPos config proj (set_lastServoUpdateMs now s))
      with (newServoPos config proj s).
    rewrite EA, EE. cbn [bind].
    cbn [_servoPos set_lastServoUpdateMs servo_get].
    rewrite (servoStep_exact_signed IDX_AZIM) by lia. cbn [bind].
    rewrite (servoStep_exact_signed IDX_ELEV) by lia. cbn [bind].
    reflexivity.
  - unfold servo_within_reach, servo_azim_floor.
    cbn [_servoPos set_servoPos pos_azim pos_elev]. split; [split|].
    + apply (spec_servoStep_between config Hcfg IDX_AZIM); lia.
    + unfold servo_in_bounds. cbn [servo_get pos_elev].
      apply (spec_servoStep_between config Hcfg IDX_ELEV); lia.
    + intros proj' Ep' Hge Hb. rewrite Ep in Ep'. inversion Ep'. subst proj'.
      specialize (HnA' Hge).
      unfold servo_in_bounds in *. cbn [servo_get pos_azim] in *.
      apply (spec_servoStep_between config Hcfg IDX_AZIM); lia.
Qed.

Variable isHomeSet : Home -> bool.

Lemma Loop_within_reach (now : Z) (s : AatModule) :
  tracking_ok s ->
  servo_within_reach config (_servoPos s) ->
  exists s',
    Loop isHomeSet config now s = Some s'
    /\ tracking_ok s'
    /\ servo_within_reach config (_servoPos s').
Proof.
  intros Hok Hw. unfold Loop.
  destruct (processGps_total isHomeSet config now s) as (s1 & E1).
  rewrite E1. cbn [bind].
  pose proof (processGps_tracking_ok _ _ _ _ _ Hok E1) as Hok1.
  pose proof (processGps_frame _ _ _ _ _ E1) as (Ep & _).
  rewrite <- Ep in Hw.
  destruct (isHomeSet (_home s1) && (DELAY_FIRST_UPDATE <? now)).
  - destruct (servoUpdate_within_reach now s1 Hok1 Hw) as (s' & E & Hw' & _).
    exists s'. split; [exact E|]. split; [|exact Hw'].
    apply servoUpdate_frame in E.
    destruct E as (_ & _ & Ea & Ed & Ez & Ee & Er).
    unfold tracking_ok in *. rewrite Ea, Ed, Ez, Ee, Er. exact Hok1.
  - exists s1. split; [reflexivity|]. split; assumption.
Qed.

Lemma Init_within_reach (s : AatModule) :
  servo_within_reach config (_servoPos (Init config s)).
Proof.
  pose proof (Init_in_bounds config Hcfg s IDX_AZIM) as (_ & HA).
  pose proof (Init_in_bounds config Hcfg s IDX_ELEV) as (_ & HE).
  split; [|exact HE].
  unfold servo_in_bounds in HA. cbn [servo_get] in HA.
  pose proof Hcfg as (Hc & _). specialize (Hc IDX_AZIM).
  unfold servo_azim_floor. lia.
Qed.

Lemma reachable_within_reach (s : AatModule) :
  reachable isHomeSet config s ->
  tracking_ok s /\ servo_within_reach config (_servoPos s).
Proof.
  induction 1 as [|s s' Hr (Hok & Hw) Hs].
  - split; [|apply Init_within_reach].
    unfold tracking_ok. cbn. lia.
  - destruct Hs as [p s|now s s' E].
    + split; assumption.
    + destruct (Loop_within_reach now s Hok Hw) as (s1 & E1 & Hok1 & Hw1).
      rewrite E in E1. inversion E1. subst s1. split; assumption.
Qed.

End ServoReach.

Section ServoExtras.

Variable isHomeSet : Home -> bool.
Variable config : Config.

(** X4.  With well-formed options, in every reachable state the elevation
    axis is within its bounds times 100, and the azimuth axis is at most
    at its high bound and at least at its floor, half a range below its
    low bound. *)
Theorem servo_positions_within_reach (s : AatModule) :
  config_ok config ->
  reachable isHomeSet config s ->
  GetAatServoLow config IDX_ELEV * 100 <= pos_elev (_servoPos s)
    <= GetAatServoHigh config IDX_ELEV * 100
  /\ 100 * GetAatServoLow config IDX_AZIM
     - 50 * (GetAatServoHigh config IDX_AZIM - GetAatServoLow config IDX_AZIM)
     <= pos_azim (_servoPos s)
     <= GetAatServoHigh config IDX_AZIM * 100.
Proof.
  intros Hcfg Hr.
  destruct (reachable_within_reach config Hcfg isHomeSet s Hr)
    as (_ & HA & HE).
  split; [exact HE | exact HA].
Qed.

(** X5.  With well-formed options (low below high on both axes) [Loop]
    returns from every reachable state at every time: none of its
    divisions meets a zero divisor. *)
Theorem Loop_returns (now : Z) (s : AatModule) :
  config_ok config ->
  reachable isHomeSet config s ->
  exists s', Loop isHomeSet config now s = Some s'.
Proof.
  intros Hcfg Hr.
  destruct (reachable_within_reach config Hcfg isHomeSet s Hr) as (Hok & Hw).
  destruct (Loop_within_reach config Hcfg isHomeSet now s Hok Hw)
    as (s' & E & _).
  exists s'. exact E.
Qed.

Lemma reachable_in_bounds_unprojected (s : AatModule) :
  config_ok config ->
  GetAatProject config = false ->
  reachable isHomeSet config s ->
  tracking_ok s
  /\ servo_within_reach config (_servoPos s)
  /\ servo_in_bounds config (_servoPos s) IDX_AZIM.
Proof.
  intros Hcfg Hp.
  induction 1 as [|s s' Hr (Hok & Hw & Hb) Hs].
  - split; [unfold tracking_ok; cbn; lia|].
    split; [apply Init_within_reach; exact Hcfg|].
    apply Init_in_bounds. exact Hcfg.
  - destruct Hs as [p s|now s s' E]; [split; [|split]; assumption|].
    unfold Loop in E.
    destruct (processGps isHomeSet config now s) as [s1|] eqn:E1;
      [|discriminate]. cbn [bind] in E.
    pose proof (processGps_tracking_ok _ _ _ _ _ Hok E1) as Hok1.
    pose proof (processGps_frame _ _ _ _ _ E1) as (Ep & _).
    rewrite <- Ep in Hw, Hb.
    destruct (isHomeSet (_home s1) && (DELAY_FIRST_UPDATE <? now)).
    + destruct (servoUpdate_within_reach config Hcfg now s1 Hok1 Hw)
        as (s2 & E2 & Hw2 & Hb2).
      rewrite E in E2. inversion E2. subst s2.
      split; [|split; [exact Hw2|]].
      * apply servoUpdate_frame in E.
        destruct E as (_ & _ & Ea & Ed & Ez & Ee & Er).
        unfold tracking_ok in *. rewrite Ea, Ed, Ez, Ee, Er. exact Hok1.
      * apply (Hb2 (_targetAzim s1)); [| |exact Hb].
        -- apply calcProjectedAzim_fallback. left. exact Hp.
        -- destruct Hok1 as (? & _). lia.
    + inversion E. subst s'. split; [|split]; assumption.
Qed.

(** X6.  With azimuth projection disabled in the options, both axes are
    within their bounds times 100 in every reachable state. *)
Theorem servo_in_bounds_without_projection (s : AatModule) (idx : ServoIndex) :
  config_ok config ->
  GetAatProject config = false ->
  reachable isHomeSet config s ->
  GetAatServoLow config idx * 100 <= servo_get (_servoPos s) idx
    <= GetAatServoHigh config idx * 100.
Proof.
  intros Hcfg Hp Hr.
  destruct (reachable_in_bounds_unprojected s Hcfg Hp Hr)
    as (_ & (_ & HE) & HA).
  destruct idx; [exact HA | exact HE].
Qed.

(** X7.  An axis whose low and high bound are equal has range 0: a
    [servoUpdate] that is due then divides by zero, whatever the state. *)
Theorem servoUpdate_zero_range (now : Z) (s : AatModule) (idx : ServoIndex) :
  GetAatServoHigh config idx = GetAatServoLow config idx ->
  20 <= usub32 now (_lastServoUpdateMs s) ->
  servoUpdate config now s = None.
Proof.
  intros Hz Hi. unfold servoUpdate.
  destruct (usub32 now (_lastServoUpdateMs s) <? 20) eqn:E; [lia|].
  assert (Hs : forall n c, servoStep config idx n c = None).
  { intros n c. unfold servoStep, sub32. rewrite Hz, Z.sub_diag.
    reflexivity. }
  destruct (calcProjectedAzim _ _ _) as [pa|]; [|reflexivity]. cbn [bind].
  destruct (newServoPos _ _ _ IDX_AZIM) as [na|]; [|reflexivity]. cbn [bind].
  destruct (newServoPos _ _ _ IDX_ELEV) as [ne|]; [|reflexivity]. cbn [bind].
  destruct idx.
  - rewrite Hs. reflexivity.
  - destruct (servoStep config IDX_AZIM _ _); [|reflexivity]. cbn [bind].
    rewrite Hs. reflexivity.
Qed.

(** X8.  Servo updates are at least 20 ms apart: after a [servoUpdate] that
    ran at [now], a call less than 20 ms later changes nothing. *)
Theorem servoUpdate_rate_limited (now now' : Z) (s s' : AatModule) :
  20 <= usub32 now (_lastServoUpdateMs s) ->
  servoUpdate config now s = Some s' ->
  usub32 now' now < 20 ->
  _lastServoUpdateMs s' = now
  /\ servoUpdate config now' s' = Some s'.
Proof.
  intros Hi E Hn.
  assert (El : _lastServoUpdateMs s' = now).
  { unfold servoUpdate in E.
    destruct (usub32 now (_lastServoUpdateMs s) <? 20) eqn:E0; [lia|].
    destruct (calcProjectedAzim _ _ _) as [pa|]; [|discriminate].
    cbn [bind] in E.
    destruct (newServoPos _ _ _ IDX_AZIM) as [na|]; [|discriminate].
    cbn [bind] in E.
    destruct (newServoPos _ _ _ IDX_ELEV) as [ne|]; [|discriminate].
    cbn [bind] in E.
    destruct (servoStep _ IDX_AZIM _ _) as [a|]; [|discriminate].
    cbn [bind] in E.
    destruct (servoStep _ IDX_ELEV _ _) as [e|]; [|discriminate].
    cbn [bind] in E. inversion E. reflexivity. }
  split; [exact El|].
  apply servoUpdate_early. rewrite El. exact Hn.
Qed.

(** X9.  [Init] puts each axis at the truncated midpoint of its bounds,
    times 100, and that is within the bounds times 100. *)
Theorem Init_midpoint (s : AatModule) (idx : ServoIndex) :
  config_ok config ->
  servo_get (_servoPos (Init config s)) idx
  = Z.quot (GetAatServoLow config idx + GetAatServoHigh config idx) 2 * 100
  /\ GetAatServoLow config idx * 100
     <= servo_get (_servoPos (Init config s)) idx
     <= GetAatServoHigh config idx * 100.
Proof.
  intros Hcfg. apply (Init_in_bounds config Hcfg s idx).
Qed.

(** X1.  In every reachable state the target azimuth is in [0, 360), the
    target elevation in [0, 90], the distance a 32-bit value, the average
    interval at most 1,000,000 and the rate an [int32_t] value. *)
Theorem reachable_state_ranges (s : AatModule) :
  reachable isHomeSet config s ->
  0 <= _targetAzim s < 360
  /\ 0 <= _targetElev s <= 90
  /\ 0 <= _targetDistance s < 2 ^ 32
  /\ 0 <= _gpsAvgUpdateInterval s <= 1000000
  /\ - 2 ^ 31 <= _azimMsPerDegree s < 2 ^ 31.
Proof.
  intros Hr. exact (reachable_tracking_ok isHomeSet config s Hr).
Qed.

End ServoExtras.

(** ** Projection: where it starts, how far it goes *)

Section ProjectionExtras.

Variable config : Config.

(** The guard of [calcProjectedAzim], as a decision. *)
Lemma projection_cases (s : AatModule) :
  (GetAatProject config = true
   /\ _gpsAvgUpdateInterval s <> 0
   /\ _azimMsPerDegree s <> 0
   /\ 3 < _targetDistance s)
  \/ (GetAatProject config = false
      \/ _gpsAvgUpdateInterval s = 0
      \/ _azimMsPerDegree s = 0
      \/ _targetDistance s <= 3).
Proof.
  destruct (GetAatProject config); [|right; left; reflexivity].
  destruct (Z.eq_dec (_gpsAvgUpdateInterval s) 0);
    [right; right; left; assumption|].
  destruct (Z.eq_dec (_azimMsPerDegree s) 0);
    [right; right; right; left; assumption|].
  destruct (Z_le_gt_dec (_targetDistance s) 3);
    [right; right; right; right; assumption|].
  left. repeat split; try assumption. lia.
Qed.

(** X10.  At the time of the last processed record the projection is the
    stored azimuth, and from one average interval after it on the
    projection no longer moves. *)
Theorem projection_starts_and_saturates (s : AatModule) :
  tracking_ok s ->
  (forall now,
      usub32 now (lastUpdateMs (_gpsLast s)) = 0 ->
      calcProjectedAzim config now s = Some (_targetAzim s))
  /\ (forall now now',
         _gpsAvgUpdateInterval s / 100
           <= usub32 now (lastUpdateMs (_gpsLast s)) ->
         _gpsAvgUpdateInterval s / 100
           <= usub32 now' (lastUpdateMs (_gpsLast s)) ->
         calcProjectedAzim config now s = calcProjectedAzim config now' s).
Proof.
  intros Hok.
  pose proof Hok as (Haz & _ & _ & Havg & _).
  assert (Hm : 0 <= _gpsAvgUpdateInterval s / 100) by zdiv.
  destruct (projection_cases s) as [(Hp & Ha & Hr & Hd)|Hf].
  - split.
    + intros now E0.
      rewrite calcProjectedAzim_active by assumption.
      rewrite E0. rewrite constrain_inside by lia.
      rewrite Z.quot_0_l
        by (pose proof (azimMsPDLimited_floor (_azimMsPerDegree s)); lia).
      f_equal. zdiv.
    + intros now now' H1 H2.
      rewrite !calcProjectedAzim_active by assumption.
      assert (Hc : forall u, _gpsAvgUpdateInterval s / 100 <= u ->
                 constrain u 0 (_gpsAvgUpdateInterval s / 100)
                 = _gpsAvgUpdateInterval s / 100).
      { intros u Hu. unfold constrain.
        destruct (u <? 0) eqn:E1; [lia|].
        destruct (_ <? u) eqn:E2; lia. }
      rewrite !Hc by assumption. reflexivity.
  - split.
    + intros now _. apply calcProjectedAzim_fallback. exact Hf.
    + intros now now' _ _.
      rewrite !calcProjectedAzim_fallback by exact Hf. reflexivity.
Qed.

(** X11.  The projection is the stored azimuth turned by [q] degrees,
    modulo 360, where [q] has the sign of the rate and is at most one
    degree per 10 ms elapsed since the last record, and at most 1000; with
    a rate that is not negative the result is an azimuth in [0, 360). *)
Theorem projection_is_rate_limited (now : Z) (s : AatModule) :
  tracking_ok s ->
  exists p q,
    calcProjectedAzim config now s = Some p
    /\ (p - (_targetAzim s + q)) mod 360 = 0
    /\ Z.abs q * 10 <= usub32 now (lastUpdateMs (_gpsLast s))
    /\ Z.abs q <= 1000
    /\ (0 <= _azimMsPerDegree s -> 0 <= q /\ 0 <= p < 360)
    /\ (_azimMsPerDegree s <= 0 -> q <= 0).
Proof.
  intros Hok.
  pose proof Hok as (Haz & _ & _ & Havg & _).
  pose proof (uint32_range (now - lastUpdateMs (_gpsLast s))) as Hu.
  fold (usub32 now (lastUpdateMs (_gpsLast s))) in Hu.
  destruct (projection_cases s) as [(Hp & Ha & Hr & Hd)|Hf].
  - set (u := usub32 now (lastUpdateMs (_gpsLast s))) in *.
    set (e := constrain u 0 (_gpsAvgUpdateInterval s / 100)).
    set (l := azimMsPDLimited (_azimMsPerDegree s)).
    exists (Z.rem (Z.quot e l + _targetAzim s + 360) 360), (Z.quot e l).
    pose proof (elapsed_range now s Havg) as He. fold u e in He.
    pose proof (azimMsPDLimited_floor (_azimMsPerDegree s))
      as (Hl & Hlp & Hln). fold l in Hl, Hlp, Hln.
    assert (Heu : e <= u).
    { unfold e, constrain.
      destruct (u <? 0) eqn:E1; [lia|].
      destruct (_ <? u) eqn:E2; lia. }
    assert (Hq : Z.abs (Z.quot e l) * 10 <= e).
    { rewrite <- Z.quot_abs by lia. rewrite Z.quot_div_nonneg by lia.
      rewrite (Z.abs_eq e) by lia.
      pose proof (Z.mul_div_le e (Z.abs l) ltac:(lia)).
      assert (0 <= e / Z.abs l) by (apply Z.div_pos; lia). nia. }
    split; [apply calcProjectedAzim_active; assumption|].
    split; [zdiv|]. split; [lia|]. split; [lia|].
    split.
    + intros Hpos. specialize (Hlp ltac:(lia)).
      pose proof (Z.quot_pos e l ltac:(lia) ltac:(lia)). split; [lia|zdiv].
    + intros Hneg. specialize (Hln Hneg).
      assert (E : Z.quot e l = - Z.quot e (- l)).
      { rewrite Z.quot_opp_r by lia. lia. }
      pose proof (Z.quot_pos e (- l) ltac:(lia) ltac:(lia)). lia.
  - exists (_targetAzim s), 0.
    split; [apply calcProjectedAzim_fallback; exact Hf|].
    split; [rewrite Z.add_0_r, Z.sub_diag; reflexivity|].
    cbn. repeat split; lia.
Qed.

End ProjectionExtras.

(** ** The rate stored by [processGps] *)

Section RateExtras.

Variable isHomeSet : Home -> bool.
Variable config : Config.

(** X13.  For a record processed with home set less than 2^31 ms after the
    previous one, the stored rate is 0 exactly when the azimuth did not
    change or changed by more degrees than milliseconds have passed; it
    has the sign of the azimuth change and is at most the interval in
    magnitude. *)
Theorem rate_zero_and_sign (now : Z) (s : AatModule) :
  updated (_gpsLast s) = true ->
  isHomeSet (_home s) = true ->
  let interval := processInterval now s in
  let delta := azimDelta (fixAzimuth (_home s) (_gpsLast s)) (_targetAzim s) in
  interval < 2 ^ 31 ->
  exists s',
    processGps isHomeSet config now s = Some s'
    /\ (_azimMsPerDegree s' = 0 <-> delta = 0 \/ interval < Z.abs delta)
    /\ (0 < delta -> 0 <= _azimMsPerDegree s')
    /\ (delta < 0 -> _azimMsPerDegree s' <= 0)
    /\ Z.abs (_azimMsPerDegree s') <= interval.
Proof.
  intros Hu Hh interval delta Hi.
  assert (H0 : 0 <= interval) by apply uint32_range.
  eexists. split; [apply processGps_track; assumption|].
  fold interval delta.
  cbn [_azimMsPerDegree set_target set_azimMsPerDegree].
  destruct (delta =? 0) eqn:E.
  - apply Z.eqb_eq in E. repeat split; lia.
  - apply Z.eqb_neq in E.
    rewrite (int32_small interval) by lia.
    pose proof (quot_abs_le interval delta E) as Hq.
    rewrite int32_small by lia.
    split.
    + rewrite Z.quot_small_iff by exact E. split; [intros H; right|]; lia.
    + split; [|split].
      * intros Hd. apply Z.quot_pos; lia.
      * intros Hd.
        assert (Eq : Z.quot interval delta = - Z.quot interval (- delta)).
        { rewrite Z.quot_opp_r by lia. lia. }
        pose proof (Z.quot_pos interval (- delta) ltac:(lia) ltac:(lia)).
        lia.
      * lia.
Qed.

End RateExtras.

(** ** The interval filter: approach without overshoot *)

(** X14.  For an interval of at most 10 s the filter moves the average
    toward the hundredfold interval and never past it, and it leaves the
    average as it is exactly when the two differ by less than 4. *)
Theorem updateGpsInterval_approach (interval avg : Z) :
  0 <= interval <= 10000 -> 0 <= avg <= 1000000 ->
  let sample := interval * 100 in
  let avg' := updateGpsInterval interval avg in
  (avg <= sample -> avg <= avg' <= sample)
  /\ (sample <= avg -> sample <= avg' <= avg)
  /\ (avg' = avg <-> Z.abs (sample - avg) < 4).
Proof.
  intros Hi Ha sample avg'.
  unfold avg'. rewrite updateGpsInterval_exact by lia. fold sample.
  assert (Hs : 0 <= sample <= 1000000) by (unfold sample; lia).
  assert (Hq : (0 <= sample - avg ->
                0 <= 4 * Z.quot (sample - avg) 4 <= sample - avg
                /\ sample - avg < 4 * Z.quot (sample - avg) 4 + 4)
               /\ (sample - avg <= 0 ->
                   sample - avg <= 4 * Z.quot (sample - avg) 4 <= 0
                   /\ 4 * Z.quot (sample - avg) 4 - 4 < sample - avg))
    by zdiv.
  destruct Hq as (Hp & Hn).
  destruct (Z_le_gt_dec 0 (sample - avg)) as [H|H].
  - specialize (Hp H). lia.
  - specialize (Hn ltac:(lia)). lia.
Qed.

(** ** The display *)

(** X15.  The two numbers [displayIdle] prints for a coordinate: the
    fraction is in [0, 10^7); for a coordinate that is not negative, and
    for one at most -1 degree, they give the coordinate back; for a
    coordinate between -1 and 0 degrees the integer part is 0 and the
    numbers are those of the coordinate with the sign dropped. *)
Theorem displayIdle_coord_parts (v : Z) :
  - 2 ^ 31 < v < 2 ^ 31 ->
  let i := fst (displayIdle_coord v) in
  let f := snd (displayIdle_coord v) in
  0 <= f < 10000000
  /\ (0 <= v -> v = i * 10000000 + f)
  /\ (v <= - 10000000 -> i < 0 /\ v = i * 10000000 - f)
  /\ (- 10000000 < v < 0 ->
      i = 0 /\ displayIdle_coord v = displayIdle_coord (- v)).
Proof.
  intros Hv. unfold displayIdle_coord. cbn [fst snd].
  rewrite c_abs_small by lia.
  split; [zdiv|]. split; [intros H; rewrite Z.abs_eq by lia; zdiv|].
  split; [intros H; rewrite Z.abs_neq by lia; zdiv|].
  intros H.
  assert (E0 : Z.quot v 10000000 = 0) by zdiv.
  split; [exact E0|].
  rewrite c_abs_small by lia.
  rewrite Z.abs_opp. rewrite E0. f_equal. zdiv.
Qed.

(** X16.  With an estimate of the interval [displayGpsIntervalBar] paints a
    bar two pixels wide, three pixels from the right edge, that stands on
    the bottom of the screen and is at most as high as the screen: full
    height right after a record, gone at 100%; with no estimate it paints
    nothing. *)
Theorem displayGpsIntervalBar_geometry (SCREEN_WIDTH SCREEN_HEIGHT : Z)
    (now : Z) (s : AatModule) :
  3 <= SCREEN_WIDTH < 2 ^ 15 -> 0 < SCREEN_HEIGHT < 2 ^ 8 ->
  0 <= _gpsAvgUpdateInterval s < 2 ^ 32 ->
  (_gpsAvgUpdateInterval s = 0 ->
   displayGpsIntervalBar SCREEN_WIDTH SCREEN_HEIGHT now s = Some None)
  /\ (_gpsAvgUpdateInterval s <> 0 ->
      exists pct r,
        calcGpsIntervalPct now s = Some pct
        /\ displayGpsIntervalBar SCREEN_WIDTH SCREEN_HEIGHT now s
           = Some (Some r)
        /\ rect_x r = SCREEN_WIDTH - 3 /\ rect_w r = 2
        /\ 0 <= rect_h r <= SCREEN_HEIGHT
        /\ rect_y r + rect_h r = SCREEN_HEIGHT
        /\ rect_h r = SCREEN_HEIGHT * (100 - pct) / 100
        /\ (pct = 0 -> rect_h r = SCREEN_HEIGHT)
        /\ (pct = 100 -> rect_h r = 0)).
Proof.
  intros HW HH Ha. split.
  - intros E. unfold displayGpsIntervalBar. rewrite E. reflexivity.
  - intros Hn.
    destruct (calcGpsIntervalPct_range now s Ha) as (pct & Ep & Hp).
    unfold displayGpsIntervalBar.
    destruct (_gpsAvgUpdateInterval s =? 0) eqn:E; [lia|]. cbn [negb].
    rewrite Ep. cbn [bind].
    exists pct. eexists. split; [reflexivity|]. split; [reflexivity|].
    cbn [rect_x rect_y rect_w rect_h].
    unfold usub32, umul32, sub32.
    rewrite (uint32_small (100 - pct)) by lia.
    assert (Hm : 0 <= SCREEN_HEIGHT * (100 - pct) <= 25500) by nia.
    rewrite (uint32_small (SCREEN_HEIGHT * (100 - pct))) by lia.
    assert (Hh : 0 <= SCREEN_HEIGHT * (100 - pct) / 100 <= SCREEN_HEIGHT).
    { split; [apply Z.div_pos; lia|].
      apply Z.div_le_upper_bound; nia. }
    rewrite uint8_small by lia.
    rewrite !int32_small by lia.
    split; [reflexivity|]. split; [reflexivity|]. split; [lia|].
    split; [lia|]. split; [reflexivity|]. split.
    + intros ->. rewrite Z.sub_0_r. apply Z.div_mul. lia.
    + intros ->. rewrite Z.sub_diag, Z.mul_0_r. reflexivity.
Qed.

(** ** Elevation *)

Section ElevationFacts.
Local Open Scope R_scope.

Lemma Rtrunc_opp (x : R) : Rtrunc (- x) = (- Rtrunc x)%Z.
Proof.
  assert (x = 0 \/ 0 < x \/ x < 0) as [->|[H|H]] by lra.
  - rewrite Ropp_0. change 0 with (IZR 0). rewrite Rtrunc_IZR. reflexivity.
  - unfold Rtrunc.
    destruct (Rle_dec 0 (- x)) as [P|_]; [lra|].
    destruct (Rle_dec 0 x) as [_|N]; [|lra].
    rewrite Ropp_involutive. reflexivity.
  - unfold Rtrunc.
    destruct (Rle_dec 0 (- x)) as [_|N]; [|lra].
    destruct (Rle_dec 0 x) as [P|_]; [lra|]. lia.
Qed.

(** Truncation keeps a value between the integers that enclose it. *)
Lemma Rtrunc_enclosed (x : R) (a b : Z) :
  (a <= 0 <= b)%Z -> IZR a <= x <= IZR b -> (a <= Rtrunc x <= b)%Z.
Proof.
  intros Hab Hx.
  assert (0 <= x \/ x < 0) as [H|H] by lra.
  - assert (x < IZR (b + 1)) by (rewrite plus_IZR; lra).
    pose proof (Rtrunc_between x 0 (b + 1) H ltac:(lra) H0). lia.
  - assert (Ha' : - x < IZR (- a + 1))
      by (rewrite plus_IZR, opp_IZR; lra).
    pose proof (Rtrunc_between (- x) 0 (- a + 1) ltac:(lra) ltac:(lra) Ha').
    rewrite Rtrunc_opp in H0. lia.
Qed.

(** With the target not behind (x >= 0) the angle is within a quarter
    turn, and it has the sign of y. *)
Lemma atan2_right_half (y x : R) :
  0 <= x ->
  - (PI / 2) <= atan2 y x <= PI / 2
  /\ (y <= 0 -> atan2 y x <= 0)
  /\ (0 <= y -> 0 <= atan2 y x).
Proof.
  intros Hx. pose proof PI_RGT_0 as Hpi. unfold atan2.
  destruct (Rlt_dec 0 x) as [P|N].
  - pose proof (atan_bound (y / x)) as Hb.
    split; [lra|]. split; intros Hy.
    + assert (y / x <= 0).
      { unfold Rdiv. pose proof (Rinv_0_lt_compat x P).
        replace 0 with (0 * / x) by ring.
        apply Rmult_le_compat_r; lra. }
      destruct (Req_dec (y / x) 0) as [->|Hne]; [rewrite atan_0; lra|].
      pose proof (atan_increasing (y / x) 0 ltac:(lra)).
      rewrite atan_0 in *. lra.
    + assert (0 <= y / x).
      { unfold Rdiv. pose proof (Rinv_0_lt_compat x P).
        replace 0 with (0 * / x) by ring.
        apply Rmult_le_compat_r; lra. }
      destruct (Req_dec (y / x) 0) as [->|Hne]; [rewrite atan_0; lra|].
      pose proof (atan_increasing 0 (y / x) ltac:(lra)).
      rewrite atan_0 in *. lra.
  - destruct (Rlt_dec x 0) as [Q|_]; [lra|].
    destruct (Rlt_dec 0 y) as [Py|Ny].
    + split; [lra|]. split; intros; lra.
    + destruct (Rlt_dec y 0) as [Qy|_].
      * split; [lra|]. split; intros; lra.
      * split; [lra|]. split; intros; lra.
Qed.

Lemma RAD2DEG_quarter (a : R) :
  - (PI / 2) <= a <= PI / 2 ->
  - 90 <= RAD2DEG a <= 90
  /\ (a <= 0 -> RAD2DEG a <= 0)
  /\ (0 <= a -> 0 <= RAD2DEG a).
Proof.
  intros Ha. pose proof PI_RGT_0 as Hpi. unfold RAD2DEG.
  assert (Hi : 0 < / PI) by (apply Rinv_0_lt_compat; lra).
  assert (E : forall k, k * PI * 180 / PI = k * 180)
    by (intros k; field; lra).
  split; [|split].
  - split.
    + replace (-90) with ((- (1 / 2)) * PI * 180 / PI) by (rewrite E; lra).
      unfold Rdiv. apply Rmult_le_compat_r; lra.
    + replace 90 with ((1 / 2) * PI * 180 / PI) by (rewrite E; lra).
      unfold Rdiv. apply Rmult_le_compat_r; lra.
  - intros H. replace 0 with (0 * 180 * / PI) by ring.
    unfold Rdiv. apply Rmult_le_compat_r; lra.
  - intros H. replace 0 with (0 * 180 * / PI) by ring.
    unfold Rdiv. apply Rmult_le_compat_r; lra.
Qed.

End ElevationFacts.

(** X17.  For a distance that is not negative [calcElevation] is within
    [-90, 90] and has the sign of the altitude difference; so the
    elevation [processGps] stores, cut to [0, 90], is 0 whenever the
    target is not above home. *)
Theorem calcElevation_range (distance alt : Z) :
  0 <= distance ->
  - 90 <= calcElevation distance alt <= 90
  /\ (0 <= alt -> 0 <= calcElevation distance alt)
  /\ (alt <= 0 ->
      calcElevation distance alt <= 0
      /\ uint8 (constrain (calcElevation distance alt) 0 90) = 0).
Proof.
  intros Hd.
  assert (Hx : (0 <= IZR distance)%R) by (apply IZR_le; exact Hd).
  destruct (atan2_right_half (IZR alt) (IZR distance) Hx) as (Hq & Hn & Hp).
  destruct (RAD2DEG_quarter _ Hq) as (Hr & Hrn & Hrp).
  pose proof (Rtrunc_enclosed _ (-90) 90 ltac:(lia) Hr) as Ht.
  unfold calcElevation, double_to_int32.
  rewrite int32_small by lia.
  split; [exact Ht|]. split.
  - intros Ha.
    assert (Hy : (0 <= IZR alt)%R) by (apply IZR_le; exact Ha).
    specialize (Hrp (Hp Hy)).
    pose proof (Rtrunc_enclosed _ 0 90 ltac:(lia)
                  (conj Hrp (proj2 Hr))). lia.
  - intros Ha.
    assert (Hy : (IZR alt <= 0)%R) by (apply IZR_le; exact Ha).
    specialize (Hrn (Hn Hy)).
    pose proof (Rtrunc_enclosed _ (-90) 0 ltac:(lia)
                  (conj (proj1 Hr) Hrn)) as H0.
    split; [lia|].
    unfold constrain.
    destruct (_ <? 0) eqn:E1; [reflexivity|].
    destruct (90 <? _) eqn:E2; [lia|].
    assert (E : Rtrunc
                  (RAD2DEG (atan2 (IZR alt) (IZR distance))) = 0) by lia.
    rewrite E. reflexivity.
Qed.

(** ** Distance and bearing against the formulas of the specification *)

Section SpecFormulas.
Local Open Scope R_scope.





End SpecFormulas.


Section SpecRefinement.

Variables srcLat srcLon dstLat dstLon : Z.





End SpecRefinement.


(** ** Bearings along the axes, and the symmetry of the distance *)

Section CardinalFacts.
Local Open Scope R_scope.



Lemma DEG2RAD_opp (k : Z) :
  DEG2RAD (IZR (- k) / 10000000) = - DEG2RAD (IZR k / 10000000).
Proof. unfold DEG2RAD. rewrite opp_IZR. field. Qed.






End CardinalFacts.


Lemma cos_sub32_swap (a b : Z) :
  cos (DEG2RAD (IZR (float_of_int32 (sub32 a b)) / 10000000))
  = cos (DEG2RAD (IZR (float_of_int32 (sub32 b a)) / 10000000)).
Proof.
  assert (E : sub32 a b = (- sub32 b a)%Z \/ sub32 a b = sub32 b a).
  { unfold sub32, int32. zdiv. }
  destruct E as [E|E]; rewrite E; [|reflexivity].
  rewrite float_of_int32_opp, DEG2RAD_opp. apply cos_neg.
Qed.

(** X19.  The distance is symmetric: from A to B it is the same number of
    meters as from B to A.  The conversion to [float] is odd and the
    cosine even, so the longitude difference enters both ways alike, also
    where the subtraction wraps. *)
Theorem calcDistAndAzimuth_dist_sym (latA lonA latB lonB : Z) :
  fst (calcDistAndAzimuth latA lonA latB lonB)
  = fst (calcDistAndAzimuth latB lonB latA lonA).
Proof.
  unfold calcDistAndAzimuth. cbn [fst].
  rewrite (cos_sub32_swap lonB lonA).
  f_equal. f_equal. f_equal. ring.
Qed.

Section SpecValues.
Local Open Scope R_scope.





End SpecValues.


(** ** Runs without a usable record *)


Section NoHome.

Variable isHomeSet : Home -> bool.
Variable config : Config.

(** X20.  As long as every record has fewer satellites than the configured
    minimum, home stays unset, whatever the records and the ticks: home,
    the target vector, both estimates and the servo positions are still
    those [Init] left. *)
Theorem no_home_without_satellites (evs : list Event) :
  isHomeSet (_home AatModule_new) = false ->
  few_satellites (GetAatSatelliteHomeMin config) evs ->
  exists s',
    run isHomeSet config evs (Init config AatModule_new) = Some s'
    /\ _home s' = _home AatModule_new
    /\ _targetDistance s' = 0 /\ _targetAzim s' = 0 /\ _targetElev s' = 0
    /\ _gpsAvgUpdateInterval s' = 0 /\ _azimMsPerDegree s' = 0
    /\ _servoPos s' = _servoPos (Init config AatModule_new).
Proof.
  intros H0 Hf.
  set (inv := fun s : AatModule =>
    (updated (_gpsLast s) = true ->
     satcnt (_gpsLast s) < GetAatSatelliteHomeMin config)
    /\ set_gpsLast (_gpsLast AatModule_new) s
       = set_gpsLast (_gpsLast AatModule_new) (Init config AatModule_new)).
  assert (Hinv : inv (Init config AatModule_new)).
  { split; [cbn; discriminate | reflexivity]. }
  assert (Hrun : forall s, inv s ->
            exists s', run isHomeSet config evs s = Some s' /\ inv s').
  { induction Hf as [|ev evs Hev _ IH]; intros s (Hs & Hr).
    - exists s. split; [reflexivity | split; assumption].
    - destruct ev as [p|now]; cbn [run].
      + apply IH. split; [intros _; exact Hev|].
        rewrite <- Hr. reflexivity.
      + assert (Hh : isHomeSet (_home s) = false).
        { replace (_home s)
            with (_home (set_gpsLast (_gpsLast AatModule_new) s))
            by reflexivity.
          rewrite Hr. exact H0. }
        assert (E : exists s1,
                   Loop isHomeSet config now s = Some s1
                   /\ updated (_gpsLast s1) = false
                   /\ set_gpsLast (_gpsLast AatModule_new) s1
                      = set_gpsLast (_gpsLast AatModule_new) s).
        { destruct (updated (_gpsLast s)) eqn:Hu.
          - exists (consumeFix now s). split.
            + apply Loop_rejected; auto.
            + split; reflexivity.
          - exists s. split; [|split; [exact Hu | reflexivity]].
            unfold Loop. rewrite processGps_not_updated by exact Hu.
            cbn [bind]. rewrite Hh. reflexivity. }
        destruct E as (s1 & E1 & Hu1 & Hr1).
        rewrite E1. cbn [bind]. apply IH.
        split; [rewrite Hu1; discriminate | congruence]. }
  destruct (Hrun _ Hinv) as (s' & E & _ & Hr).
  exists s'. split; [exact E|].
  assert (P : forall f : AatModule -> Z,
             (forall g s, f (set_gpsLast g s) = f s) ->
             f s' = f (Init config AatModule_new)).
  { intros f Hfr. rewrite <- (Hfr (_gpsLast AatModule_new) s'), Hr.
    apply Hfr. }
  split.
  { change (_home s')
      with (_home (set_gpsLast (_gpsLast AatModule_new) s')).
    rewrite Hr. reflexivity. }
  split; [apply (P _targetDistance); reflexivity|].
  split; [apply (P _targetAzim); reflexivity|].
  split; [apply (P _targetElev); reflexivity|].
  split; [apply (P _gpsAvgUpdateInterval); reflexivity|].
  split; [apply (P _azimMsPerDegree); reflexivity|].
  change (_servoPos s')
    with (_servoPos (set_gpsLast (_gpsLast AatModule_new) s')).
  rewrite Hr. reflexivity.
Qed.

End NoHome.

(** ** Staleness: when the bar is full *)

(** X21.  With an estimate of the interval, and as long as the product
    does not wrap, the staleness percentage never decreases as time
    passes, and it is 100 exactly from one average interval after the
    last record on. *)
Theorem staleness_full_after_one_interval (now now' : Z) (s : AatModule) :
  0 < _gpsAvgUpdateInterval s < 2 ^ 32 ->
  let elapsed := usub32 now (lastUpdateMs (_gpsLast s)) in
  let elapsed' := usub32 now' (lastUpdateMs (_gpsLast s)) in
  elapsed <= elapsed' -> elapsed' * 10000 < 2 ^ 32 ->
  exists pct pct',
    calcGpsIntervalPct now s = Some pct
    /\ calcGpsIntervalPct now' s = Some pct'
    /\ pct <= pct'
    /\ (pct = 100 <-> _gpsAvgUpdateInterval s <= elapsed * 100).
Proof.
  intros Ha elapsed elapsed' Hle Hov.
  assert (H0 : 0 <= elapsed) by apply uint32_range.
  do 2 eexists.
  split; [apply calcGpsIntervalPct_exact; [exact Ha | fold elapsed; lia]|].
  split; [apply calcGpsIntervalPct_exact; [exact Ha | exact Hov]|].
  fold elapsed elapsed'.
  set (a := _gpsAvgUpdateInterval s) in *.
  assert (Hq : 0 <= elapsed * 10000 / a <= elapsed' * 10000 / a).
  { split; [apply Z.div_pos; lia|].
    apply Z.div_le_mono; lia. }
  assert (Hfull : 100 <= elapsed * 10000 / a <-> a <= elapsed * 100).
  { split; intros H.
    - pose proof (Z.mul_div_le (elapsed * 10000) a ltac:(lia)). nia.
    - apply Z.div_le_lower_bound; lia. }
  unfold constrain.
  destruct (elapsed * 10000 / a <? 0) eqn:E1; [lia|].
  destruct (elapsed' * 10000 / a <? 0) eqn:E2; [lia|].
  destruct (100 <? elapsed * 10000 / a) eqn:E3;
    destruct (100 <? elapsed' * 10000 / a) eqn:E4; split; lia.
Qed.

(** ** The further properties at concrete inputs *)

Lemma reachable_state_ranges_witness :
  0 <= _gpsAvgUpdateInterval (Init scenario_config AatModule_new) <= 1000000.
Proof.
  exact (proj1 (proj2 (proj2 (proj2
           (reachable_state_ranges isHomeSet_nonzero scenario_config
              (Init scenario_config AatModule_new)
              (reach_init isHomeSet_nonzero scenario_config)))))).
Defined.

Lemma record_processed_once_witness :
  processGps isHomeSet_nonzero scenario_config 9000
    (consumeFix 7000
       (SendGpsTelemetry (mkGpsPacket 10000000 10000000 0 0 1100 3)
          (Init scenario_config AatModule_new)))
  = Some (consumeFix 7000
            (SendGpsTelemetry (mkGpsPacket 10000000 10000000 0 0 1100 3)
               (Init scenario_config AatModule_new))).
Proof.
  refine (proj1 (proj2 (record_processed_once isHomeSet_nonzero
                          scenario_config 7000 9000
                          (SendGpsTelemetry
                             (mkGpsPacket 10000000 10000000 0 0 1100 3)
                             (Init scenario_config AatModule_new)) _ _))).
  vm_compute. reflexivity.
Defined.

Lemma SendGpsTelemetry_single_slot_witness :
  altitude (_gpsLast (SendGpsTelemetry fix_home AatModule_new)) = 100.
Proof.
  refine (proj1 (proj2 (proj2 (proj2
            (SendGpsTelemetry_single_slot fix_home fix_south AatModule_new))))
            _).
  cbn. lia.
Defined.

Lemma servo_positions_within_reach_witness :
  100000 <= pos_elev (_servoPos (Init scenario_config AatModule_new))
         <= 200000.
Proof.
  refine (proj1 (servo_positions_within_reach isHomeSet_nonzero
                   scenario_config (Init scenario_config AatModule_new) _ _)).
  - unfold config_ok, scenario_config. cbn. split; [intros idx|]; lia.
  - apply reach_init.
Defined.

Lemma Loop_returns_witness :
  exists s',
    Loop isHomeSet_nonzero scenario_config 10000
         (Init scenario_config AatModule_new) = Some s'.
Proof.
  refine (Loop_returns isHomeSet_nonzero scenario_config 10000
            (Init scenario_config AatModule_new) _ _).
  - unfold config_ok, scenario_config. cbn. split; [intros idx|]; lia.
  - apply reach_init.
Defined.

Lemma servo_in_bounds_without_projection_witness :
  100000
  <= servo_get
       (_servoPos (Init (mkConfig 6 (fun _ => 1000) (fun _ => 2000) 3 false)
                        AatModule_new)) IDX_AZIM
  <= 200000.
Proof.
  refine (servo_in_bounds_without_projection isHomeSet_nonzero
            (mkConfig 6 (fun _ => 1000) (fun _ => 2000) 3 false)
            (Init (mkConfig 6 (fun _ => 1000) (fun _ => 2000) 3 false)
                  AatModule_new) IDX_AZIM _ _ _).
  - unfold config_ok. cbn. split; [intros idx|]; lia.
  - reflexivity.
  - apply reach_init.
Defined.

Lemma servoUpdate_zero_range_witness :
  servoUpdate (mkConfig 6 (fun _ => 1500) (fun _ => 1500) 3 true) 10000
    (Init (mkConfig 6 (fun _ => 1500) (fun _ => 1500) 3 true) AatModule_new)
  = None.
Proof.
  refine (servoUpdate_zero_range
            (mkConfig 6 (fun _ => 1500) (fun _ => 1500) 3 true) 10000
            (Init (mkConfig 6 (fun _ => 1500) (fun _ => 1500) 3 true)
                  AatModule_new) IDX_AZIM _ _).
  - reflexivity.
  - vm_compute. discriminate.
Defined.

Lemma servoUpdate_rate_limited_witness :
  servoUpdate scenario_config 10019
    (mkAatModule (mkGpsLast 0 0 0 0 0 0 0 false) (mkHome 0 0 0)
                 0 10000 0 0 0 0 (mkServoPos 150000 137500))
  = Some (mkAatModule (mkGpsLast 0 0 0 0 0 0 0 false) (mkHome 0 0 0)
                      0 10000 0 0 0 0 (mkServoPos 150000 137500)).
Proof.
  refine (proj2 (servoUpdate_rate_limited scenario_config 10000 10019
                   (Init scenario_config AatModule_new) _ _ _ _)).
  - vm_compute. discriminate.
  - vm_compute. reflexivity.
  - vm_compute. reflexivity.
Defined.

Lemma Init_midpoint_witness :
  servo_get (_servoPos (Init scenario_config AatModule_new)) IDX_AZIM
  = 150000.
Proof.
  refine (proj1 (Init_midpoint scenario_config AatModule_new IDX_AZIM _)).
  unfold config_ok, scenario_config. cbn. split; [intros idx|]; lia.
Defined.

Lemma projection_starts_and_saturates_witness :
  calcProjectedAzim scenario_config 51900
    (mkAatModule (mkGpsLast 10002000 10000000 0 0 100 51900 8 false)
                 (mkHome 10000000 10000000 100)
                 797500 51900 22 0 0 (-10) (mkServoPos 140625 121094))
  = Some 0.
Proof.
  refine (proj1 (projection_starts_and_saturates scenario_config
                   (mkAatModule
                      (mkGpsLast 10002000 10000000 0 0 100 51900 8 false)
                      (mkHome 10000000 10000000 100)
                      797500 51900 22 0 0 (-10) (mkServoPos 140625 121094))
                   _) 51900 _).
  - unfold tracking_ok. cbn. lia.
  - reflexivity.
Defined.

Lemma projection_is_rate_limited_witness :
  exists p q,
    calcProjectedAzim scenario_config 57400
      (mkAatModule (mkGpsLast 10002000 10000000 0 0 100 51900 8 false)
                   (mkHome 10000000 10000000 100)
                   797500 51900 22 0 0 (-10) (mkServoPos 140625 121094))
    = Some p
    /\ (p - (0 + q)) mod 360 = 0.
Proof.
  destruct (projection_is_rate_limited scenario_config 57400
              (mkAatModule
                 (mkGpsLast 10002000 10000000 0 0 100 51900 8 false)
                 (mkHome 10000000 10000000 100)
                 797500 51900 22 0 0 (-10) (mkServoPos 140625 121094)))
    as (p & q & E & Hm & _).
  - unfold tracking_ok. cbn. lia.
  - exists p, q. split; [exact E | exact Hm].
Defined.

Lemma servos_rest_until_home_witness :
  _lastServoUpdateMs
    (consumeFix 7000
       (SendGpsTelemetry (mkGpsPacket 10000000 10000000 0 0 1100 3)
          (Init scenario_config AatModule_new))) = 0.
Proof.
  refine (proj2 (servos_rest_until_home isHomeSet_nonzero scenario_config
                   [Gps (mkGpsPacket 10000000 10000000 0 0 1100 3);
                    Tick 7000] _ _ _)).
  - vm_compute. reflexivity.
  - reflexivity.
Defined.

Lemma rate_zero_and_sign_witness :
  exists s',
    processGps isHomeSet_nonzero scenario_config 50000
      (SendGpsTelemetry fix_south
         (mkAatModule
            (mkGpsLast 10000000 10000000 0 0 100 10000 8 false)
            (mkHome 10000000 10000000 100)
            0 10000 0 0 0 0 (mkServoPos 150000 137500)))
    = Some s'
    /\ Z.abs (_azimMsPerDegree s') <= 40000.
Proof.
  destruct (rate_zero_and_sign isHomeSet_nonzero scenario_config 50000
              (SendGpsTelemetry fix_south
                 (mkAatModule
                    (mkGpsLast 10000000 10000000 0 0 100 10000 8 false)
                    (mkHome 10000000 10000000 100)
                    0 10000 0 0 0 0 (mkServoPos 150000 137500))))
    as (s' & E & _ & _ & _ & Hb);
    [reflexivity | reflexivity | vm_compute; reflexivity |].
  exists s'. split; [exact E | exact Hb].
Defined.

Lemma updateGpsInterval_approach_witness :
  0 <= updateGpsInterval 1000 0 <= 100000.
Proof.
  refine (proj1 (updateGpsInterval_approach 1000 0 _ _) _); lia.
Defined.

Lemma displayIdle_coord_parts_witness :
  fst (displayIdle_coord (- 5000000)) = 0
  /\ displayIdle_coord (- 5000000) = displayIdle_coord (- - 5000000).
Proof.
  refine (proj2 (proj2 (proj2 (displayIdle_coord_parts (- 5000000) _))) _);
    lia.
Defined.

Lemma displayGpsIntervalBar_geometry_witness :
  displayGpsIntervalBar 128 64 1000 AatModule_new = Some None.
Proof.
  refine (proj1 (displayGpsIntervalBar_geometry 128 64 1000
                   AatModule_new _ _ _) _);
    cbn; lia.
Defined.

Lemma calcElevation_range_witness :
  calcElevation 22 (- 5) <= 0
  /\ uint8 (constrain (calcElevation 22 (- 5)) 0 90) = 0.
Proof.
  refine (proj2 (proj2 (calcElevation_range 22 (- 5) _)) _); lia.
Defined.




Lemma no_home_without_satellites_witness :
  exists s',
    run isHomeSet_nonzero scenario_config
        [Gps (mkGpsPacket 10000000 10000000 0 0 1100 3); Tick 7000;
         Gps (mkGpsPacket 10000000 10000000 0 0 1100 5); Tick 8000]
        (Init scenario_config AatModule_new) = Some s'
    /\ _home s' = mkHome 0 0 0.
Proof.
  destruct (no_home_without_satellites isHomeSet_nonzero scenario_config
              [Gps (mkGpsPacket 10000000 10000000 0 0 1100 3); Tick 7000;
               Gps (mkGpsPacket 10000000 10000000 0 0 1100 5); Tick 8000])
    as (s' & E & Hh & _).
  - reflexivity.
  - unfold few_satellites.
    repeat (apply Forall_cons; [cbn; try lia; exact I|]). apply Forall_nil.
  - exists s'. split; [exact E | exact Hh].
Defined.

Lemma staleness_full_after_one_interval_witness :
  exists pct pct',
    calcGpsIntervalPct 500
      (mkAatModule (mkGpsLast 0 0 0 0 0 0 0 false) (mkHome 0 0 0)
                   100000 0 0 0 0 0 (mkServoPos 0 0)) = Some pct
    /\ calcGpsIntervalPct 1200
         (mkAatModule (mkGpsLast 0 0 0 0 0 0 0 false) (mkHome 0 0 0)
                      100000 0 0 0 0 0 (mkServoPos 0 0)) = Some pct'
    /\ pct <= pct'.
Proof.
  destruct (staleness_full_after_one_interval 500 1200
              (mkAatModule (mkGpsLast 0 0 0 0 0 0 0 false) (mkHome 0 0 0)
                           100000 0 0 0 0 0 (mkServoPos 0 0)))
    as (pct & pct' & E & E' & Hle & _).
  - cbn. lia.
  - vm_compute. discriminate.
  - vm_compute. reflexivity.
  - exists pct, pct'. split; [exact E|]. split; [exact E' | exact Hle].
Defined.
